(** * openshift-slack-notifications: the event-to-notification pipeline

    A shallow embedding of the Go program that watches warning events of a
    cluster and forwards the novel ones to a Slack webhook.  Two listings of
    the program exist: [src/unnamed/part_000], which deduplicates on a reduced
    fingerprint ([buildCachedEvent]), and [src/main.go], which deduplicates on
    the raw event message.

    Go strings are byte sequences; they are modelled by [string], whose
    characters are 8-bit [ascii] values. *)

From Stdlib Require Import ZArith Lia List Bool Ascii String.
From stdpp Require Import base option gmap strings.
Import ListNotations.

Local Open Scope string_scope.
Local Open Scope list_scope.

(** ** The part of Go's [strings] package the program uses *)

Module Strings.

(** [s[n:]] for [n <= len(s)]. *)
Fixpoint drop (n : nat) (s : string) : string :=
  match n, s with
  | O, _ => s
  | S _, EmptyString => EmptyString
  | S k, String _ s' => drop k s'
  end.

(** [s[:n]] for [n <= len(s)]. *)
Fixpoint take (n : nat) (s : string) : string :=
  match n, s with
  | O, _ => EmptyString
  | S _, EmptyString => EmptyString
  | S k, String c s' => String c (take k s')
  end.

(** [strings.HasPrefix(s, prefix)]. *)
Definition HasPrefix (s pre : string) : bool := String.prefix pre s.

(** [strings.Index(s, sep)]: the byte offset of the first occurrence of
    [sep] in [s]; Go's [-1] is [None]. *)
Fixpoint Index (s sep : string) : option nat :=
  if HasPrefix s sep then Some O
  else match s with
       | EmptyString => None
       | String _ s' => option_map S (Index s' sep)
       end.

(** The loop of [strings.genSplit] for a non-empty separator and no limit
    ([n < 0]): cut at the leftmost occurrence, continue behind it.  Go
    bounds the loop by [Count(s, sep)]; every round consumes at least one
    byte, so [fuel = len(s)] rounds are never exhausted before [Index]
    reports that no occurrence is left. *)
Fixpoint genSplit (fuel : nat) (s sep : string) : list string :=
  match fuel with
  | O => [s]
  | S fuel' =>
      match Index s sep with
      | None => [s]
      | Some m => take m s :: genSplit fuel' (drop (m + String.length sep) s) sep
      end
  end.

(** [strings.Split(s, sep)] for [sep <> ""]. *)
Definition Split (s sep : string) : list string :=
  genSplit (String.length s) s sep.

(** [strings.Join(elems, sep)]. *)
Fixpoint Join (elems : list string) (sep : string) : string :=
  match elems with
  | [] => ""
  | [x] => x
  | x :: rest => x +:+ sep +:+ Join rest sep
  end.

(** The loop of [strings.Replace(s, old, new, -1)] for [old <> ""]. *)
Fixpoint replaceLoop (fuel : nat) (s old new : string) : string :=
  match fuel with
  | O => s
  | S fuel' =>
      match Index s old with
      | None => s
      | Some m =>
          take m s +:+ new +:+ replaceLoop fuel' (drop (m + String.length old) s) old new
      end
  end.

(** [strings.Replace(s, old, new, -1)] for [old <> ""]. *)
Definition Replace (s old new : string) : string :=
  replaceLoop (String.length s) s old new.

End Strings.

(** ** Events *)

(** [v1.ObjectReference], restricted to the fields the program reads. *)
Record ObjectReference := {
  Kind : string;
  Namespace : string;
  Name : string
}.

(** [v1.Event], restricted to the fields the program reads.  A timestamp is
    an instant in nanoseconds since the epoch. *)
Record Event := {
  InvolvedObject : ObjectReference;
  Reason : string;
  Message : string;
  FirstTimestamp : Z
}.

(** [time.Second] and [time.Minute], in nanoseconds. *)
Definition Second : Z := 1000000000.
Definition Minute : Z := 60 * Second.

(** [t.After(u)]. *)
Definition After (t u : Z) : bool := (u <? t)%Z.

(** ** The fingerprint reducer (part_000, [buildCachedEvent]) *)

(** A Go slice index expression [s[0]] panics on an empty slice. *)
Definition index0 (s : list string) : option string :=
  match s with
  | [] => None
  | x :: _ => Some x
  end.

Definition healthCheckMarker : string := ": Get http://10.".

(** The slice [msgc] as it stands before the final [strings.Join]; [None]
    is a run-time panic of an index expression. *)
Definition buildCachedEvent_msgc (event : Event) : option (list string) :=
  let msgc := [] in
  let msgc := msgc ++ [Namespace (InvolvedObject event)] in
  let s := Strings.Split (Name (InvolvedObject event)) "-" in
  s0 ← index0 s;
  let msgc := msgc ++ [s0] in
  if Strings.HasPrefix (Message event) "Readiness"
     || Strings.HasPrefix (Message event) "Liveness"
  then
    let s := Strings.Split (Message event) healthCheckMarker in
    s0 ← index0 s;
    Some (msgc ++ [Strings.Replace s0 " " "_"])
  else
    Some (msgc ++ [Message event]).

Definition buildCachedEvent (event : Event) : option string :=
  msgc ← buildCachedEvent_msgc event;
  Some (Strings.Join msgc "_").

Definition mkEvent (ns kind name reason msg : string) (ts : Z) : Event :=
  {| InvolvedObject := {| Kind := kind; Namespace := ns; Name := name |};
     Reason := reason; Message := msg; FirstTimestamp := ts |}.

(** ** The dedup cache: [github.com/patrickmn/go-cache], as the program uses it

    The library is a map from string keys to items that carry an absolute
    expiration instant in nanoseconds ([0]: never expires).  Its clock
    readings are explicit arguments here.  The janitor goroutine of the
    library deletes only items that [Get] already reports absent, and is left
    out. *)

Module Cache.

Record Item := { Object : string; Expiration : Z }.

Record cache := {
  defaultExpiration : Z;
  items : gmap string Item
}.

Definition DefaultExpiration : Z := 0.

(** [cache.New(defaultExpiration, cleanupInterval)]. *)
Definition New (de cleanupInterval : Z) : cache :=
  {| defaultExpiration := de; items := ∅ |}.

(** [c.Set(k, x, d)] executed at the instant [now]. *)
Definition SetItem (c : cache) (k x : string) (d now : Z) : cache :=
  let d := if (d =? DefaultExpiration)%Z then defaultExpiration c else d in
  let e := if (0 <? d)%Z then (now + d)%Z else 0%Z in
  {| defaultExpiration := defaultExpiration c;
     items := <[k := {| Object := x; Expiration := e |}]> (items c) |}.

(** [c.Get(k)] executed at the instant [now]; [None] is [found = false]. *)
Definition Get (c : cache) (k : string) (now : Z) : option string :=
  match items c !! k with
  | None => None
  | Some item =>
      if (0 <? Expiration item)%Z && (Expiration item <? now)%Z then None
      else Some (Object item)
  end.

End Cache.

(** [var cachesvr = cache.New(1*time.Minute, 2*time.Minute)]. *)
Definition cachesvr : Cache.cache :=
  Cache.New (1 * Minute) (2 * Minute).

Definition last_slack_event : string := "last_slack_event".

(** ** The Slack payload *)

Record SlackField := {
  sf_Title : string;
  sf_Value : string;
  sf_Short : bool
}.

Record SlackAttachment := {
  Color : string;
  AuthorName : string;
  AuthorLink : string;
  Title : string;
  TitleLink : string;
  Text : string;
  Fields : list SlackField
}.

Record SlackMessage := { Attachments : list SlackAttachment }.

(** [*http.Request], as far as the program touches it. *)
Record Request := {
  Method : string;
  URL : string;
  Body : string;
  Header : gmap string string
}.

(** What the program takes from its platform: the process environment
    ([os.Getenv]) and the library functions [strings.ToLower],
    [json.Marshal] and [http.NewRequest].  [None] stands for a non-nil
    [err]. *)
Record Platform := {
  Getenv : string -> string;
  ToLower : string -> string;
  jsonMarshal : SlackMessage -> option string;
  NewRequest : string -> string -> string -> option Request
}.

(** ** Effects: cache state, an action trace, and panics *)

Inductive Action :=
| ActSubscribe (startTime : Z)
| ActCacheGet (key : string)
| ActCacheSet (key value : string)
| ActCacheDelete (key : string)
| ActReduce (event : Event)
| ActNotify (event : Event)
| ActPost (req : Request)
| ActPrint (line : string)
| ActSleep (nanoseconds : Z).

Inductive Result (A : Type) :=
| Ok (a : A) (c : Cache.cache) (t : list Action)
| Panic (msg : string) (c : Cache.cache) (t : list Action).
Arguments Ok {A} a c t.
Arguments Panic {A} msg c t.

Definition M (A : Type) : Type := Cache.cache -> Result A.

Definition ret {A} (a : A) : M A := fun c => Ok a c [].

Definition bind {A B} (m : M A) (f : A -> M B) : M B := fun c =>
  match m c with
  | Ok a c1 t1 =>
      match f a c1 with
      | Ok b c2 t2 => Ok b c2 (t1 ++ t2)
      | Panic msg c2 t2 => Panic msg c2 (t1 ++ t2)
      end
  | Panic msg c1 t1 => Panic msg c1 t1
  end.

#[export] Instance M_ret : MRet M := @ret.
#[export] Instance M_bind : MBind M := fun A B f m => bind m f.

Definition panic {A} (msg : string) : M A := fun c => Panic msg c [].
Definition emit (a : Action) : M unit := fun c => Ok tt c [a].

Definition cacheGet (k : string) (now : Z) : M (option string) := fun c =>
  Ok (Cache.Get c k now) c [ActCacheGet k].

Definition cacheSet (k x : string) (d now : Z) : M unit := fun c =>
  Ok tt (Cache.SetItem c k x d now) [ActCacheSet k x].

Definition res_trace {A} (r : Result A) : list Action :=
  match r with Ok _ _ t => t | Panic _ _ t => t end.

Definition res_cache {A} (r : Result A) : Cache.cache :=
  match r with Ok _ c _ => c | Panic _ c _ => c end.

Definition panicked {A} (r : Result A) : bool :=
  match r with Ok _ _ _ => false | Panic _ _ _ => true end.

(** The events handed to the notifier, in order. *)
Fixpoint notifications (t : list Action) : list Event :=
  match t with
  | [] => []
  | ActNotify e :: t' => e :: notifications t'
  | _ :: t' => notifications t'
  end.

(** ** The notifier ([notifySlack], the same in both listings) *)

Definition resourceUrl (P : Platform) (event : Event) : string :=
  Getenv P "OPENSHIFT_CONSOLE_URL" +:+ "/project/"
    +:+ Namespace (InvolvedObject event) +:+ "/browse/"
    +:+ ToLower P (Kind (InvolvedObject event)) +:+ "s/"
    +:+ Name (InvolvedObject event).

Definition monitoringUrl (P : Platform) (event : Event) : string :=
  Getenv P "OPENSHIFT_CONSOLE_URL" +:+ "project/"
    +:+ Namespace (InvolvedObject event) +:+ "/monitoring".

Definition slackMessage (P : Platform) (event : Event) : SlackMessage :=
  {| Attachments :=
       [ {| Color := "warning";
            AuthorName := Namespace (InvolvedObject event);
            AuthorLink := monitoringUrl P event;
            Title := Name (InvolvedObject event);
            TitleLink := resourceUrl P event;
            Text := Message event;
            Fields :=
              [ {| sf_Title := "Reason"; sf_Value := Reason event; sf_Short := true |};
                {| sf_Title := "Kind"; sf_Value := Kind (InvolvedObject event);
                   sf_Short := true |} ] |} ] |}.

(** [req.Header.Set(k, v)]. *)
Definition HeaderSet (req : Request) (k v : string) : Request :=
  {| Method := Method req; URL := URL req; Body := Body req;
     Header := <[k := v]> (Header req) |}.

(** [doErr] tells whether [client.Do] returns a non-nil error for this call
    (a transport failure); a response of any status, a non-2xx one included,
    is no error, and the program discards it.  A failed [http.NewRequest]
    leaves [req] nil, its error is overwritten unread, and [req.Header.Set]
    dereferences the nil request.  The branch on the error of [json.Marshal]
    is kept as the source has it; on a [SlackMessage], which holds strings,
    booleans and slices only, [json.Marshal] returns no error. *)
Definition notifySlack (P : Platform) (doErr : bool) (event : Event) : M unit :=
  emit (ActNotify event) ;;
  let webhookUrl := Getenv P "SLACK_WEBHOOK_URL" in
  let message := slackMessage P event in
  match jsonMarshal P message with
  | None => panic "json.Marshal"
  | Some messageJson =>
      match NewRequest P "POST" webhookUrl messageJson with
      | None => panic "nil pointer dereference"
      | Some req =>
          let req := HeaderSet req "Content-Type" "application/json" in
          emit (ActPost req) ;;
          if doErr then emit (ActPrint "Unable to reach the server.")
          else mret tt
      end
  end.

(** ** The watch loop *)

(** [watchEvent.Object]: a [runtime.Object], which is a [*v1.Event] or
    something else (the feed reports its own errors as a status object). *)
Inductive RuntimeObject :=
| ObjEvent (event : Event)
| ObjStatus (status : string).

(** One receive from [watcher.ResultChan()], with what the environment
    decides while the event is handled: the clock readings the cache takes in
    [Get] and in [Set], and the outcome of [client.Do]. *)
Record Arrival := {
  a_object : RuntimeObject;
  a_getTime : Z;
  a_setTime : Z;
  a_doErr : bool
}.

(** [for watchEvent := range ch { body }] over a channel that delivers
    [ch] and is then closed. *)
Fixpoint rangeChan (body : Arrival -> M unit) (ch : list Arrival) : M unit :=
  match ch with
  | [] => mret tt
  | a :: rest => body a ;; rangeChan body rest
  end.

(** The result of [Events("").Watch(...)]. *)
Inductive WatchResult :=
| WatchErr (err : string)
| WatchOpen (ch : list Arrival).

(** One turn of the retry driver: the reading of [time.Now()] that becomes
    [startTime], and what [Watch] returns. *)
Record Attempt := {
  at_startTime : Z;
  at_watch : WatchResult
}.

Definition reduce (event : Event) : M string :=
  emit (ActReduce event) ;;
  match buildCachedEvent event with
  | None => panic "index out of range"
  | Some fp => mret fp
  end.

Module Part000.

(** The body of the [range] loop of [watchEvents]. *)
Definition handleEvent (P : Platform) (startTime : Z) (a : Arrival) : M unit :=
  match a_object a with
  | ObjStatus _ => panic "interface conversion"
  | ObjEvent event =>
      if After (FirstTimestamp event) startTime then
        found ← cacheGet last_slack_event (a_getTime a);
        match found with
        | None =>
            notifySlack P (a_doErr a) event ;;
            currentMessage ← reduce event;
            cacheSet last_slack_event currentMessage 0 (a_setTime a)
        | Some cachedMessage =>
            currentMessage ← reduce event;
            if negb (String.eqb cachedMessage currentMessage) then
              notifySlack P (a_doErr a) event ;;
              cacheSet last_slack_event currentMessage 0 (a_setTime a)
            else mret tt
        end
      else mret tt
  end.

Definition watchEvents (P : Platform) (att : Attempt) : M unit :=
  let startTime := at_startTime att in
  match at_watch att with
  | WatchErr err => panic err
  | WatchOpen ch =>
      emit (ActSubscribe startTime) ;;
      rangeChan (handleEvent P startTime) ch
  end.

(** The goroutine of [main]: [for { watchEvents(clientset);
    time.Sleep(5 * time.Second) }], unrolled over the attempts the
    environment grants. *)
Fixpoint retryDriver (P : Platform) (attempts : list Attempt) : M unit :=
  match attempts with
  | [] => mret tt
  | att :: rest =>
      watchEvents P att ;;
      emit (ActSleep (5 * Second)) ;;
      retryDriver P rest
  end.

End Part000.

Module MainGo.

(** The body of the [range] loop of [watchEvents] in [src/main.go]: the
    cache holds the raw message. *)
Definition handleEvent (P : Platform) (startTime : Z) (a : Arrival) : M unit :=
  match a_object a with
  | ObjStatus _ => panic "interface conversion"
  | ObjEvent event =>
      if After (FirstTimestamp event) startTime then
        found ← cacheGet last_slack_event (a_getTime a);
        match found with
        | None =>
            notifySlack P (a_doErr a) event ;;
            cacheSet last_slack_event (Message event) 0 (a_setTime a)
        | Some msg =>
            if negb (String.eqb msg (Message event)) then
              notifySlack P (a_doErr a) event ;;
              cacheSet last_slack_event (Message event) 0 (a_setTime a)
            else mret tt
        end
      else mret tt
  end.

Definition watchEvents (P : Platform) (att : Attempt) : M unit :=
  let startTime := at_startTime att in
  match at_watch att with
  | WatchErr err => panic err
  | WatchOpen ch =>
      emit (ActSubscribe startTime) ;;
      rangeChan (handleEvent P startTime) ch
  end.

(** The goroutine of [main] in [src/main.go], the same loop as in part_000. *)
Fixpoint retryDriver (P : Platform) (attempts : list Attempt) : M unit :=
  match attempts with
  | [] => mret tt
  | att :: rest =>
      watchEvents P att ;;
      emit (ActSleep (5 * Second)) ;;
      retryDriver P rest
  end.

End MainGo.

(** ** Specification-side notions for strings *)

(** [s] with every byte [from] replaced by [to]. *)
Fixpoint mapByte (from to : ascii) (s : string) : string :=
  match s with
  | EmptyString => EmptyString
  | String c s' => String (if Ascii.eqb c from then to else c) (mapByte from to s')
  end.

(** [seg] is the first [sep]-delimited segment of [s]: it holds no [sep],
    and it is all of [s] or is followed in [s] by a [sep]. *)
Definition FirstSegment (sep s seg : string) : Prop :=
  Strings.Index seg sep = None /\
  (s = seg \/ exists rest, s = seg +:+ sep +:+ rest).

(** The part of [s] in front of the leftmost [sep], all of [s] without one. *)
Definition firstCut (s sep : string) : string :=
  match Strings.Index s sep with
  | None => s
  | Some m => Strings.take m s
  end.

Definition isHealthCheck (msg : string) : bool :=
  Strings.HasPrefix msg "Readiness" || Strings.HasPrefix msg "Liveness".

(** The message component of a fingerprint: a health-check message is cut in
    front of the marker and its spaces become underscores, any other message
    is kept. *)
Definition normalizedMessage (msg : string) : string :=
  if isHealthCheck msg then mapByte " " "_" (firstCut msg healthCheckMarker)
  else msg.

(** ** Trace disciplines *)

(** What [notifySlack] leaves in the trace behind [ActNotify] when it
    returns: the single POST and, if that failed, the printed line. *)
Definition postTrace (doErr : bool) (req : Request) : list Action :=
  ActPost req ::
  (if doErr then [ActPrint "Unable to reach the server."] else []).

(** Every notification is followed by a write of that event's fingerprint to
    the slot before the cache is read or the notifier is invoked again, the
    cache is written only so, and nothing is ever deleted from it.
    [pending] is the notified event whose fingerprint is still to be
    written. *)
Fixpoint notifyThenSet (pending : option Event) (t : list Action) : Prop :=
  match t with
  | [] => pending = None
  | ActNotify e :: t' => pending = None /\ notifyThenSet (Some e) t'
  | ActCacheSet k v :: t' =>
      (exists e, pending = Some e /\ k = last_slack_event /\
                 buildCachedEvent e = Some v) /\
      notifyThenSet None t'
  | ActCacheGet _ :: t' => pending = None /\ notifyThenSet None t'
  | ActCacheDelete _ :: _ => False
  | _ :: t' => notifyThenSet pending t'
  end.

(** The slot is empty if nothing was notified yet, and holds the fingerprint
    of the event [o] notified last otherwise. *)
Definition SlotHolds (c : Cache.cache) (o : option Event) : Prop :=
  match o with
  | None => Cache.items c !! last_slack_event = None
  | Some e =>
      exists fp exp,
        buildCachedEvent e = Some fp /\
        Cache.items c !! last_slack_event
          = Some {| Cache.Object := fp; Cache.Expiration := exp |}
  end.

(** A computation keeps the invariant: started with the slot holding the
    fingerprint of the event notified last in [hist], it ends, if it returns,
    with the slot holding that of the event notified last overall, along a
    disciplined trace. *)
Definition Preserves (m : M unit) : Prop :=
  forall (c c' : Cache.cache) (hist : list Event) (t : list Action),
    SlotHolds c (last hist) ->
    m c = Ok tt c' t ->
    SlotHolds c' (last (hist ++ notifications t)) /\ notifyThenSet None t.

(** The caches of the two listings correspond: both slots are empty, or they
    hold the raw message and the fingerprint of one event in [E], with the same
    expiration. *)
Definition Related (E : Event -> Prop) (c1 c2 : Cache.cache) : Prop :=
  Cache.defaultExpiration c1 = Cache.defaultExpiration c2 /\
  ((Cache.items c1 !! last_slack_event = None /\
    Cache.items c2 !! last_slack_event = None) \/
   exists e0 fp exp,
     E e0 /\ buildCachedEvent e0 = Some fp /\
     Cache.items c1 !! last_slack_event
       = Some {| Cache.Object := Message e0; Cache.Expiration := exp |} /\
     Cache.items c2 !! last_slack_event
       = Some {| Cache.Object := fp; Cache.Expiration := exp |}).

(** Among the events in [E], equal raw messages and equal fingerprints
    coincide. *)
Definition MessagesIdentify (E : Event -> Prop) : Prop :=
  forall e1 e2, E e1 -> E e2 ->
    (Message e1 = Message e2 <-> buildCachedEvent e1 = buildCachedEvent e2).

(** The events a stream delivers. *)
Definition delivers (ch : list Arrival) (e : Event) : Prop :=
  exists a, In a ch /\ a_object a = ObjEvent e.

(** A processing sequence observed between two steps: the completed turns
    of the retry driver, then the current turn with the events it has handled
    so far. *)
Definition processing (P : Platform) (completed : list Attempt) (cur : Attempt) : M unit :=
  Part000.retryDriver P completed ;; Part000.watchEvents P cur.

(** ** Notions for the further properties *)

(** The requests handed to [client.Do], in order. *)
Fixpoint posts (t : list Action) : list Request :=
  match t with
  | [] => []
  | ActPost req :: t' => req :: posts t'
  | _ :: t' => posts t'
  end.

(** Serialization and request construction succeed for every event. *)
Definition NotifierReturns (P : Platform) : Prop :=
  forall e : Event,
    exists body req,
      jsonMarshal P (slackMessage P e) = Some body /\
      NewRequest P "POST" (Getenv P "SLACK_WEBHOOK_URL") body = Some req.

(** The events of a stream that delivers nothing but events. *)
Fixpoint eventsOf (ch : list Arrival) : list Event :=
  match ch with
  | [] => []
  | a :: rest =>
      match a_object a with
      | ObjEvent e => e :: eventsOf rest
      | ObjStatus _ => eventsOf rest
      end
  end.

(** Every arrival of the stream is an event that passes the start-time filter. *)
Definition AllFresh (startTime : Z) (ch : list Arrival) : Prop :=
  Forall (fun a => exists e, a_object a = ObjEvent e /\
                             After (FirstTimestamp e) startTime = true) ch.

(** The events that differ in fingerprint from their predecessor; [prev] is
    the fingerprint in front of the list. *)
Fixpoint collapse (prev : option string) (es : list Event) : list Event :=
  match es with
  | [] => []
  | e :: rest =>
      if bool_decide (prev = buildCachedEvent e) then collapse prev rest
      else e :: collapse (buildCachedEvent e) rest
  end.

(** The events that differ in raw message from their predecessor. *)
Fixpoint collapseRaw (prev : option string) (es : list Event) : list Event :=
  match es with
  | [] => []
  | e :: rest =>
      if bool_decide (prev = Some (Message e)) then collapseRaw prev rest
      else e :: collapseRaw (Some (Message e)) rest
  end.

(** All cache reads of the stream happen no later than [T], and every cache
    write of the stream no earlier than a minute before [T]. *)
Definition WithinWindow (T : Z) (ch : list Arrival) : Prop :=
  Forall (fun a => (a_getTime a <= T)%Z /\ (T <= a_setTime a + 1 * Minute)%Z) ch.

(** The cache holds nothing outside the slot. *)
Definition SingleSlot (c : Cache.cache) : Prop :=
  forall k, k <> last_slack_event -> Cache.items c !! k = None.

(** The slot is empty ([prev = None]) or holds the fingerprint [prev]. *)
Definition SlotIs (c : Cache.cache) (prev : option string) : Prop :=
  match prev with
  | None => Cache.items c !! last_slack_event = None
  | Some v =>
      exists exp,
        Cache.items c !! last_slack_event
          = Some {| Cache.Object := v; Cache.Expiration := exp |}
  end.

(** As [SlotIs], with an entry that no read up to the instant [T] finds
    expired, in a cache whose default expiration is one minute. *)
Definition LiveUntil (T : Z) (c : Cache.cache) (prev : option string) : Prop :=
  Cache.defaultExpiration c = (1 * Minute)%Z /\
  match prev with
  | None => Cache.items c !! last_slack_event = None
  | Some v =>
      exists exp,
        Cache.items c !! last_slack_event
          = Some {| Cache.Object := v; Cache.Expiration := exp |} /\
        (T <= exp)%Z
  end.

(** The shape the cache of the program keeps: the default expiration of one
    minute, and nothing outside the slot. *)
Definition CacheShape (c : Cache.cache) : Prop :=
  Cache.defaultExpiration c = (1 * Minute)%Z /\ SingleSlot c.

(** A computation keeps the shape of the cache, whether it returns or
    panics. *)
Definition Keeps {A} (m : M A) : Prop :=
  forall c, CacheShape c -> CacheShape (res_cache (m c)).

(** The events the streams of a list of attempts deliver. *)
Definition deliveredBy (attempts : list Attempt) (e : Event) : Prop :=
  exists att ch, In att attempts /\ at_watch att = WatchOpen ch /\ delivers ch e.

(** Two results correspond: both returned with the same notifications and
    corresponding caches, or both panicked with the same notifications. *)
Definition Agree (E : Event -> Prop) (r1 r2 : Result unit) : Prop :=
  match r1, r2 with
  | Ok _ c1 t1, Ok _ c2 t2 =>
      notifications t1 = notifications t2 /\ Related E c1 c2
  | Panic _ _ t1, Panic _ _ t2 => notifications t1 = notifications t2
  | _, _ => False
  end.

(** ** Sample inputs *)

Definition watchFails (startTime : Z) (err : string) : Attempt :=
  {| at_startTime := startTime; at_watch := WatchErr err |}.

Definition watchOpens (startTime : Z) (ch : list Arrival) : Attempt :=
  {| at_startTime := startTime; at_watch := WatchOpen ch |}.

(** A platform on which serialization and request construction succeed. *)
Definition goodPlatform : Platform :=
  {| Getenv := fun k =>
       if String.eqb k "SLACK_WEBHOOK_URL" then "http://hooks.example/T0"
       else "http://console.example";
     ToLower := fun s => s;
     jsonMarshal := fun _ => Some "{}";
     NewRequest := fun m u b =>
       Some {| Method := m; URL := u; Body := b; Header := ∅ |} |}.

(** A platform whose webhook address does not parse, so that
    [http.NewRequest] returns an error. *)
Definition badWebhookUrl : Platform :=
  {| Getenv := fun k => if String.eqb k "SLACK_WEBHOOK_URL" then ":" else "";
     ToLower := ToLower goodPlatform;
     jsonMarshal := jsonMarshal goodPlatform;
     NewRequest := fun _ _ _ => None |}.

Definition evCrash : Event :=
  mkEvent "ns1" "Pod" "app-abc123" "BackOff" "CrashLoopBackOff" 10.

Definition evOOM : Event :=
  mkEvent "ns1" "Pod" "app-abc123" "OOMKilling" "OOMKilled" 12.

Definition evReadinessA : Event :=
  mkEvent "ns1" "Pod" "app-abc123" "Unhealthy"
    "Readiness probe failed: Get http://10.1.2.3:8080/healthz: dial tcp: timeout" 10.

Definition evReadinessB : Event :=
  mkEvent "ns1" "Pod" "app-abc123" "Unhealthy"
    "Readiness probe failed: Get http://10.9.9.9:9090/healthz: connection refused" 11.

Definition evPayments : Event :=
  mkEvent "shop" "Pod" "payments-api-7d8f9c-xk2pq" "BackOff" "CrashLoopBackOff" 10.

Definition evNoHyphen : Event :=
  mkEvent "ns1" "Node" "" "Unhealthy" "Liveness probe failed: HTTP probe failed" 10.

(** Same message as [evCrash], other namespace. *)
Definition evCrashOther : Event :=
  mkEvent "ns2" "Pod" "db-0" "BackOff" "CrashLoopBackOff" 11.

(** An event handled at the instant [now], with a successful POST. *)
Definition arrival (e : Event) (now : Z) : Arrival :=
  {| a_object := ObjEvent e; a_getTime := now; a_setTime := now; a_doErr := false |}.

(** * Properties *)

(** ** Strings *)

Section StringFacts.

Import Strings.

Lemma str_cons (c : ascii) (s t : string) : String c s +:+ t = String c (s +:+ t).
Proof. reflexivity. Qed.

Lemma str_nil_l (t : string) : "" +:+ t = t.
Proof. reflexivity. Qed.

Lemma str_assoc (a b c : string) : (a +:+ b) +:+ c = a +:+ b +:+ c.
Proof. induction a as [|x a IH]; [reflexivity | now rewrite !str_cons, IH]. Qed.

Lemma str_length (a b : string) :
  String.length (a +:+ b) = String.length a + String.length b.
Proof. induction a as [|x a IH]; [reflexivity | rewrite str_cons; simpl; now rewrite IH]. Qed.

Lemma take_drop (n : nat) (s : string) : take n s +:+ drop n s = s.
Proof.
  revert s; induction n as [|n IH]; intros [|c s]; simpl; try reflexivity.
  now rewrite str_cons, IH.
Qed.

Lemma take_app_le (n : nat) (a b : string) :
  n <= String.length a -> take n (a +:+ b) = take n a.
Proof.
  revert a; induction n as [|n IH]; intros [|c a] Hle; simpl in *;
    try reflexivity; try lia.
  rewrite IH by lia. reflexivity.
Qed.

Lemma drop_app_length (a b : string) : drop (String.length a) (a +:+ b) = b.
Proof. induction a as [|c a IH]; [now destruct b | exact IH]. Qed.

Lemma drop_length_le (n : nat) (s : string) :
  String.length (drop n s) <= String.length s - n.
Proof.
  revert s; induction n as [|n IH]; intros [|c s]; simpl; try lia.
  apply IH.
Qed.

Lemma HasPrefix_iff (s pre : string) :
  HasPrefix s pre = true <-> exists r, s = pre +:+ r.
Proof.
  unfold HasPrefix. revert s; induction pre as [|c pre IH]; intros s.
  - split; [intros _; exists s; reflexivity | now destruct s].
  - destruct s as [|d s]; simpl.
    + split; [discriminate | intros [r Hr]; discriminate].
    + destruct (ascii_dec c d) as [->|Hne].
      * rewrite IH. split; intros [r Hr]; exists r;
          [now rewrite Hr | rewrite str_cons in Hr; now injection Hr].
      * split; [discriminate |].
        intros [r Hr]; rewrite str_cons in Hr; injection Hr; intros; congruence.
Qed.

Lemma HasPrefix_app (pre r : string) : HasPrefix (pre +:+ r) pre = true.
Proof. apply HasPrefix_iff. now exists r. Qed.

Lemma HasPrefix_nil_l (pre : string) : pre <> "" -> HasPrefix "" pre = false.
Proof. destruct pre; [congruence | reflexivity]. Qed.

(** Whether [pre] starts [a +:+ b] is decided inside [a] as soon as [a] is
    at least as long as [pre]. *)
Lemma HasPrefix_app_long (a b pre : string) :
  String.length pre <= String.length a ->
  HasPrefix (a +:+ b) pre = HasPrefix a pre.
Proof.
  unfold HasPrefix. revert a; induction pre as [|c pre IH]; intros a Hle.
  - destruct a; [now destruct b | reflexivity].
  - destruct a as [|d a]; simpl in *; [lia |].
    destruct (ascii_dec c d); [apply IH; lia | reflexivity].
Qed.

Lemma HasPrefix_take (n : nat) (s pre : string) :
  HasPrefix (take n s) pre = true -> HasPrefix s pre = true.
Proof.
  rewrite !HasPrefix_iff. intros [r Hr].
  exists (r +:+ drop n s). rewrite <- str_assoc, <- Hr. symmetry; apply take_drop.
Qed.

Lemma Index_unfold (s sep : string) :
  Index s sep =
    if HasPrefix s sep then Some O
    else match s with
         | EmptyString => None
         | String _ s' => option_map S (Index s' sep)
         end.
Proof. destruct s; reflexivity. Qed.

(** [Index] returns an offset at which [sep] occurs. *)
Lemma Index_Some_split (s sep : string) (m : nat) :
  Index s sep = Some m ->
  s = take m s +:+ sep +:+ drop (m + String.length sep) s.
Proof.
  revert m; induction s as [|c s IH]; intros m; rewrite Index_unfold.
  - destruct (HasPrefix "" sep) eqn:Hp; [|discriminate].
    intros [= <-]. apply HasPrefix_iff in Hp as [r Hr].
    destruct sep; [reflexivity | discriminate].
  - destruct (HasPrefix (String c s) sep) eqn:Hp.
    + intros [= <-]. apply HasPrefix_iff in Hp as [r Hr]. simpl take.
      rewrite str_nil_l, Nat.add_0_l. rewrite Hr at 2.
      rewrite drop_app_length. exact Hr.
    + destruct (Index s sep) as [m'|] eqn:Hi; simpl; [|discriminate].
      intros [= <-]. simpl. rewrite str_cons. f_equal. now apply IH.
Qed.

(** No occurrence of [sep] fits in front of the offset [Index] returns. *)
Lemma Index_take_None (s sep : string) (m : nat) :
  sep <> "" -> Index s sep = Some m -> Index (take m s) sep = None.
Proof.
  intros Hsep. revert m; induction s as [|c s IH]; intros m; rewrite Index_unfold.
  - destruct (HasPrefix "" sep); [intros [= <-] | discriminate].
    simpl take. rewrite Index_unfold, HasPrefix_nil_l by assumption. reflexivity.
  - destruct (HasPrefix (String c s) sep) eqn:Hp.
    + intros [= <-]. simpl take. rewrite Index_unfold, HasPrefix_nil_l by assumption.
      reflexivity.
    + destruct (Index s sep) as [m'|] eqn:Hi; simpl; [|discriminate].
      intros [= <-]. rewrite Index_unfold.
      destruct (HasPrefix (take (S m') (String c s)) sep) eqn:Hq.
      * apply HasPrefix_take in Hq. congruence.
      * simpl. now rewrite (IH m').
Qed.

(** The leftmost occurrence of [sep] in [p +:+ sep +:+ r] lies within
    [p +:+ sep], whatever follows. *)
Lemma Index_app_sep (p sep : string) :
  exists m, m <= String.length p /\ forall r, Index (p +:+ sep +:+ r) sep = Some m.
Proof.
  induction p as [|c p [m [Hle IH]]].
  - exists 0. split; [simpl; lia |]. intros r. rewrite str_nil_l.
    rewrite Index_unfold, HasPrefix_app. reflexivity.
  - destruct (HasPrefix (String c p +:+ sep) sep) eqn:Hp.
    + exists 0. split; [lia |]. intros r.
      rewrite Index_unfold, <- str_assoc, HasPrefix_app_long, Hp; [reflexivity |].
      rewrite str_length. lia.
    + exists (S m). split; [simpl; lia |]. intros r.
      rewrite Index_unfold, <- str_assoc, HasPrefix_app_long, Hp.
      * rewrite str_assoc, str_cons. now rewrite IH.
      * rewrite str_length. lia.
Qed.

Lemma firstCut_app_sep (p sep : string) :
  exists q, HasPrefix p q = true /\ forall r, firstCut (p +:+ sep +:+ r) sep = q.
Proof.
  destruct (Index_app_sep p sep) as [m [Hle Hm]].
  exists (take m p). split.
  - apply HasPrefix_iff. exists (drop m p). symmetry; apply take_drop.
  - intros r. unfold firstCut. rewrite Hm. now apply take_app_le.
Qed.

Lemma index0_Split (s sep : string) : index0 (Split s sep) = Some (firstCut s sep).
Proof.
  unfold Split, firstCut. destruct s as [|c s].
  - simpl genSplit. destruct (Index "" sep) as [m|] eqn:Hi; [|reflexivity].
    rewrite Index_unfold in Hi. destruct (HasPrefix "" sep); [|discriminate].
    now injection Hi as <-.
  - change (String.length (String c s)) with (S (String.length s)).
    unfold genSplit; fold genSplit. now destruct (Index (String c s) sep).
Qed.

Lemma firstCut_FirstSegment (s sep : string) :
  sep <> "" -> FirstSegment sep s (firstCut s sep).
Proof.
  intros Hsep. unfold FirstSegment, firstCut.
  destruct (Index s sep) as [m|] eqn:Hi.
  - split; [now apply Index_take_None |].
    right. exists (drop (m + String.length sep) s). now apply Index_Some_split.
  - split; [assumption | now left].
Qed.

Lemma mapByte_app (from to : ascii) (a b : string) :
  mapByte from to (a +:+ b) = mapByte from to a +:+ mapByte from to b.
Proof. induction a as [|c a IH]; [reflexivity | simpl; now rewrite !str_cons, IH]. Qed.

Lemma mapByte_absent (s : string) :
  Index s " " = None -> mapByte " " "_" s = s.
Proof.
  induction s as [|c s IH]; [reflexivity |].
  rewrite Index_unfold.
  change (HasPrefix (String c s) " ")
    with (if ascii_dec " " c then HasPrefix s "" else false).
  destruct (ascii_dec " " c) as [<-|Hne].
  - now destruct s.
  - destruct (Index s " ") eqn:Hi; [discriminate |]. intros _.
    simpl. destruct (Ascii.eqb_spec c " "); [congruence | now rewrite IH].
Qed.

Lemma replaceLoop_space (fuel : nat) (s : string) :
  String.length s <= fuel ->
  replaceLoop fuel s " " "_" = mapByte " " "_" s.
Proof.
  revert s; induction fuel as [|fuel IH]; intros s Hlen.
  - destruct s; [reflexivity | simpl in Hlen; lia].
  - unfold replaceLoop; fold replaceLoop.
    destruct (Index s " ") as [m|] eqn:Hi.
    + pose proof (Index_Some_split _ _ _ Hi) as E.
      rewrite (f_equal (mapByte " " "_") E), !mapByte_app.
      rewrite mapByte_absent by (apply Index_take_None; [discriminate | exact Hi]).
      rewrite IH; [reflexivity |].
      pose proof (drop_length_le (m + String.length " ") s). simpl in *.
      destruct s; simpl in *; [discriminate | lia].
    + symmetry. now apply mapByte_absent.
Qed.

(** Replacing the one-byte string [" "] by ["_"] maps the bytes. *)
Lemma Replace_space (s : string) : Replace s " " "_" = mapByte " " "_" s.
Proof. apply replaceLoop_space. lia. Qed.

End StringFacts.

(** ** The fingerprint reducer *)

Section Reducer.

Import Strings.

Lemma buildCachedEvent_msgc_eq (event : Event) :
  buildCachedEvent_msgc event =
    Some [ Namespace (InvolvedObject event);
           firstCut (Name (InvolvedObject event)) "-";
           normalizedMessage (Message event) ].
Proof.
  unfold buildCachedEvent_msgc, normalizedMessage, isHealthCheck.
  rewrite (index0_Split (Name (InvolvedObject event))),
    (index0_Split (Message event)). simpl.
  destruct (HasPrefix (Message event) "Readiness" || HasPrefix (Message event) "Liveness").
  - now rewrite Replace_space.
  - reflexivity.
Qed.

Lemma buildCachedEvent_eq (event : Event) :
  buildCachedEvent event =
    Some (Join [ Namespace (InvolvedObject event);
                 firstCut (Name (InvolvedObject event)) "-";
                 normalizedMessage (Message event) ] "_").
Proof. unfold buildCachedEvent. now rewrite buildCachedEvent_msgc_eq. Qed.

(** A segment in front of a hyphen is determined by the string. *)
Lemma FirstSegment_hyphen_unique (s seg : string) :
  FirstSegment "-" s seg -> seg = firstCut s "-".
Proof.
  intros [Hnone [-> | [rest ->]]]; unfold firstCut.
  - now rewrite Hnone.
  - revert Hnone. induction seg as [|c seg IH].
    + intros _. now rewrite str_nil_l, Index_unfold, HasPrefix_app.
    + rewrite Index_unfold.
      destruct (HasPrefix (String c seg) "-") eqn:Hp; [discriminate |].
      destruct (Index seg "-") eqn:Hi; [discriminate |]. intros _.
      rewrite Index_unfold.
      assert (Hq : HasPrefix (String c seg +:+ "-" +:+ rest) "-" = false).
      { rewrite HasPrefix_app_long; [exact Hp | simpl; lia]. }
      rewrite Hq, str_cons.
      specialize (IH eq_refl).
      destruct (Index (seg +:+ "-" +:+ rest) "-") as [m|]; simpl; congruence.
Qed.

End Reducer.

(** ** Claims about the reducer *)

(** C2.  The fingerprint of every event is its subject namespace, the first
    hyphen-delimited segment of its subject name and a message component,
    joined with ["_"]; the message component is the message itself whenever
    the message begins neither with ["Readiness"] nor with ["Liveness"].
    Namespace ["ns1"], name ["app-abc123"], message ["CrashLoopBackOff"]
    give ["ns1_app_CrashLoopBackOff"]. *)
Theorem fingerprint_format :
  (forall event : Event,
      exists seg nm : string,
        buildCachedEvent event
          = Some (Strings.Join [Namespace (InvolvedObject event); seg; nm] "_") /\
        FirstSegment "-" (Name (InvolvedObject event)) seg /\
        (forall seg', FirstSegment "-" (Name (InvolvedObject event)) seg' -> seg' = seg) /\
        (Strings.HasPrefix (Message event) "Readiness" = false ->
         Strings.HasPrefix (Message event) "Liveness" = false ->
         nm = Message event)) /\
  (forall (kind reason : string) (ts : Z),
      buildCachedEvent (mkEvent "ns1" kind "app-abc123" reason "CrashLoopBackOff" ts)
        = Some "ns1_app_CrashLoopBackOff").
Proof.
  split.
  - intros event.
    exists (firstCut (Name (InvolvedObject event)) "-"), (normalizedMessage (Message event)).
    split; [apply buildCachedEvent_eq |].
    split; [apply firstCut_FirstSegment; discriminate |].
    split; [intros seg'; apply FirstSegment_hyphen_unique |].
    intros H1 H2. unfold normalizedMessage, isHealthCheck. now rewrite H1, H2.
  - intros. reflexivity.
Qed.

Lemma fingerprint_format_witness :
  exists seg nm : string,
    buildCachedEvent evCrash = Some (Strings.Join ["ns1"; seg; nm] "_") /\
    FirstSegment "-" "app-abc123" seg /\
    nm = "CrashLoopBackOff".
Proof.
  destruct (proj1 fingerprint_format evCrash) as (seg & nm & H1 & H2 & _ & H3).
  exists seg, nm. split; [exact H1 |]. split; [exact H2 |].
  apply H3; reflexivity.
Defined.

(** C3.  Two events with the same subject namespace and the same first
    hyphen-segment [seg] of the subject name, whose messages both begin with
    ["Readiness"] or both with ["Liveness"] and agree in front of the marker
    [": Get http://10."], have the same fingerprint; its message component
    is a prefix of the common part with the spaces turned into underscores. *)
Theorem healthcheck_truncation (e1 e2 : Event) (seg p r1 r2 : string) :
  Namespace (InvolvedObject e1) = Namespace (InvolvedObject e2) ->
  FirstSegment "-" (Name (InvolvedObject e1)) seg ->
  FirstSegment "-" (Name (InvolvedObject e2)) seg ->
  (Strings.HasPrefix (Message e1) "Readiness" = true /\
   Strings.HasPrefix (Message e2) "Readiness" = true) \/
  (Strings.HasPrefix (Message e1) "Liveness" = true /\
   Strings.HasPrefix (Message e2) "Liveness" = true) ->
  Message e1 = p +:+ healthCheckMarker +:+ r1 ->
  Message e2 = p +:+ healthCheckMarker +:+ r2 ->
  buildCachedEvent e1 = buildCachedEvent e2 /\
  exists q : string,
    Strings.HasPrefix p q = true /\
    buildCachedEvent e1
      = Some (Strings.Join [Namespace (InvolvedObject e1); seg; mapByte " " "_" q] "_").
Proof.
  intros Hns Hseg1 Hseg2 Hhc Hm1 Hm2.
  apply FirstSegment_hyphen_unique in Hseg1, Hseg2.
  assert (Hhealth : isHealthCheck (Message e1) = true /\ isHealthCheck (Message e2) = true).
  { unfold isHealthCheck. rewrite !orb_true_iff. tauto. }
  destruct Hhealth as [Hh1 Hh2].
  destruct (firstCut_app_sep p healthCheckMarker) as [q [Hq Hcut]].
  rewrite !buildCachedEvent_eq. unfold normalizedMessage.
  rewrite Hh1, Hh2, Hm1, Hm2, !Hcut, Hns, <- Hseg1, <- Hseg2.
  split; [reflexivity |]. exists q. split; [exact Hq | reflexivity].
Qed.

Lemma healthcheck_truncation_witness :
  buildCachedEvent evReadinessA = buildCachedEvent evReadinessB /\
  buildCachedEvent evReadinessA = Some "ns1_app_Readiness_probe_failed".
Proof.
  split; [| reflexivity].
  apply (healthcheck_truncation evReadinessA evReadinessB "app"
           "Readiness probe failed"
           "1.2.3:8080/healthz: dial tcp: timeout"
           "9.9.9:9090/healthz: connection refused");
    try reflexivity.
  - split; [reflexivity | right; exists "abc123"; reflexivity].
  - split; [reflexivity | right; exists "abc123"; reflexivity].
  - left; split; reflexivity.
Defined.

(** C4, as the code has it.  For the subject name
    ["payments-api-7d8f9c-xk2pq"] the second joined component of the
    fingerprint is ["payments"], the part in front of the first hyphen. *)
Theorem workload_prefix_first_segment (ns kind reason msg : string) (ts : Z) :
  exists nm : string,
    buildCachedEvent_msgc (mkEvent ns kind "payments-api-7d8f9c-xk2pq" reason msg ts)
      = Some [ns; "payments"; nm] /\
    buildCachedEvent (mkEvent ns kind "payments-api-7d8f9c-xk2pq" reason msg ts)
      = Some (ns +:+ "_" +:+ "payments" +:+ "_" +:+ nm).
Proof.
  exists (normalizedMessage msg).
  rewrite buildCachedEvent_eq, buildCachedEvent_msgc_eq. split; reflexivity.
Qed.

(** C4 as stated fails: the component is not ["payments-api"]. *)
Lemma workload_prefix_not_payments_api :
  buildCachedEvent_msgc evPayments = Some ["shop"; "payments"; "CrashLoopBackOff"] /\
  buildCachedEvent_msgc evPayments ≫= (fun msgc => msgc !! 1%nat) <> Some "payments-api".
Proof. split; [reflexivity | discriminate]. Qed.

(** C7.  The reducer returns a fingerprint for every event.  A subject name
    without a hyphen (the empty name included) is its own first segment, and
    a health-check message without the marker contributes the whole message
    with spaces turned into underscores. *)
Theorem reducer_total (event : Event) :
  exists fp : string,
    buildCachedEvent event = Some fp /\
    (Strings.Index (Name (InvolvedObject event)) "-" = None ->
     exists nm, fp = Strings.Join [ Namespace (InvolvedObject event);
                                    Name (InvolvedObject event); nm ] "_") /\
    (isHealthCheck (Message event) = true ->
     Strings.Index (Message event) healthCheckMarker = None ->
     fp = Strings.Join [ Namespace (InvolvedObject event);
                         firstCut (Name (InvolvedObject event)) "-";
                         mapByte " " "_" (Message event) ] "_").
Proof.
  eexists. split; [apply buildCachedEvent_eq |]. split.
  - intros Hi. exists (normalizedMessage (Message event)).
    unfold firstCut. now rewrite Hi.
  - intros Hh Hi. unfold normalizedMessage, firstCut. now rewrite Hh, Hi.
Qed.

Lemma reducer_total_witness :
  buildCachedEvent evNoHyphen = Some "ns1__Liveness_probe_failed:_HTTP_probe_failed".
Proof.
  destruct (reducer_total evNoHyphen) as (fp & -> & _ & H).
  rewrite H; reflexivity.
Defined.

(** ** The notifier *)

Lemma notifySlack_eq (P : Platform) (doErr : bool) (event : Event) (c : Cache.cache) :
  notifySlack P doErr event c =
    match jsonMarshal P (slackMessage P event) with
    | None => Panic "json.Marshal" c [ActNotify event]
    | Some messageJson =>
        match NewRequest P "POST" (Getenv P "SLACK_WEBHOOK_URL") messageJson with
        | None => Panic "nil pointer dereference" c [ActNotify event]
        | Some req =>
            Ok tt c (ActNotify event ::
                     postTrace doErr (HeaderSet req "Content-Type" "application/json"))
        end
    end.
Proof.
  unfold notifySlack, mbind, M_bind, bind, emit, panic, postTrace.
  destruct (jsonMarshal P (slackMessage P event)) as [body|]; [|reflexivity].
  destruct (NewRequest P "POST" (Getenv P "SLACK_WEBHOOK_URL") body) as [req|];
    [|reflexivity].
  destruct doErr; reflexivity.
Qed.

Lemma notifications_app (t1 t2 : list Action) :
  notifications (t1 ++ t2) = notifications t1 ++ notifications t2.
Proof.
  induction t1 as [|a t1 IH]; [reflexivity |].
  destruct a; simpl; rewrite IH; reflexivity.
Qed.

(** X18.  When serialization and request construction succeed,
    [notifySlack] returns to its caller whatever [client.Do] does: it posts
    once, prints a line exactly when [client.Do] returned an error, and
    leaves the cache alone. *)
Theorem notifier_swallows_transport_failure
    (P : Platform) (doErr : bool) (event : Event) (c : Cache.cache)
    (messageJson : string) (req : Request) :
  jsonMarshal P (slackMessage P event) = Some messageJson ->
  NewRequest P "POST" (Getenv P "SLACK_WEBHOOK_URL") messageJson = Some req ->
  notifySlack P doErr event c =
    Ok tt c
      (ActNotify event
       :: ActPost (HeaderSet req "Content-Type" "application/json")
       :: (if doErr then [ActPrint "Unable to reach the server."] else [])).
Proof. intros Hm Hr. now rewrite notifySlack_eq, Hm, Hr. Qed.

Lemma notifier_swallows_transport_failure_witness :
  exists req : Request,
    notifySlack goodPlatform true evCrash cachesvr =
      Ok tt cachesvr
        [ActNotify evCrash; ActPost req; ActPrint "Unable to reach the server."].
Proof.
  eexists.
  apply (notifier_swallows_transport_failure goodPlatform true evCrash cachesvr "{}"
           {| Method := "POST"; URL := "http://hooks.example/T0"; Body := "{}";
              Header := ∅ |}); reflexivity.
Defined.

(** C9.  The notifier does raise: with a webhook address that
    [http.NewRequest] rejects, [notifySlack] panics on the nil request
    whatever the POST would have done, and the panic, which nothing
    recovers, ends the retry driver at the first event to be notified. *)
Theorem notifier_panics_on_bad_webhook_url :
  (forall doErr : bool,
      notifySlack badWebhookUrl doErr evCrash cachesvr
        = Panic "nil pointer dereference" cachesvr [ActNotify evCrash]) /\
  Part000.retryDriver badWebhookUrl
    [watchOpens 0 [arrival evCrash 1]; watchOpens 6 [arrival evOOM 7]] cachesvr
  = Panic "nil pointer dereference" cachesvr
      [ActSubscribe 0; ActCacheGet last_slack_event; ActNotify evCrash].
Proof. split; [intros []; reflexivity | reflexivity]. Qed.

(** ** One step of the watch loop *)

Lemma buildCachedEvent_Some (event : Event) :
  exists fp, buildCachedEvent event = Some fp.
Proof. eexists. apply buildCachedEvent_eq. Qed.

Lemma eqb_fingerprint (v fp : string) (event : Event) :
  buildCachedEvent event = Some fp ->
  String.eqb v fp = bool_decide (Some v = buildCachedEvent event).
Proof.
  intros ->. destruct (String.eqb_spec v fp) as [->|Hne].
  - now rewrite bool_decide_eq_true_2.
  - rewrite bool_decide_eq_false_2; [reflexivity | congruence].
Qed.

(** What [Part000.handleEvent] does, case by case. *)
Lemma handleEvent_spec (P : Platform) (startTime : Z) (a : Arrival) (c : Cache.cache) :
  match a_object a with
  | ObjStatus _ =>
      Part000.handleEvent P startTime a c = Panic "interface conversion" c []
  | ObjEvent e =>
      if After (FirstTimestamp e) startTime then
        if bool_decide (Cache.Get c last_slack_event (a_getTime a) = buildCachedEvent e)
        then
          Part000.handleEvent P startTime a c
            = Ok tt c [ActCacheGet last_slack_event; ActReduce e]
        else
          exists fp, buildCachedEvent e = Some fp /\
          match Part000.handleEvent P startTime a c with
          | Ok _ c' t =>
              c' = Cache.SetItem c last_slack_event fp 0 (a_setTime a) /\
              notifications t = [e] /\ notifyThenSet None t
          | Panic _ c' t =>
              c' = c /\ notifications t = [e]
          end
      else
        Part000.handleEvent P startTime a c = Ok tt c []
  end.
Proof.
  unfold Part000.handleEvent.
  destruct (a_object a) as [e|st]; [|reflexivity].
  destruct (After (FirstTimestamp e) startTime); [|reflexivity].
  destruct (buildCachedEvent_Some e) as [fp Hfp].
  unfold reduce. rewrite Hfp.
  cbv beta iota delta [mbind M_bind bind cacheGet cacheSet emit mret M_ret ret].
  destruct (Cache.Get c last_slack_event (a_getTime a)) as [v|] eqn:Hget.
  - rewrite (eqb_fingerprint v fp e Hfp), Hfp.
    destruct (bool_decide (Some v = Some fp)); simpl; [reflexivity |].
    exists fp. split; [reflexivity |].
    rewrite notifySlack_eq.
    destruct (jsonMarshal P (slackMessage P e)) as [body|]; [|now split].
    destruct (NewRequest P "POST" (Getenv P "SLACK_WEBHOOK_URL") body) as [req|];
      [|now split].
    split; [reflexivity |].
    destruct (a_doErr a); simpl; (split; [reflexivity |]); repeat split; eauto.
  - rewrite bool_decide_eq_false_2 by discriminate.
    exists fp. split; [reflexivity |].
    rewrite notifySlack_eq.
    destruct (jsonMarshal P (slackMessage P e)) as [body|]; [|now split].
    destruct (NewRequest P "POST" (Getenv P "SLACK_WEBHOOK_URL") body) as [req|];
      [|now split].
    split; [reflexivity |].
    destruct (a_doErr a); simpl; (split; [reflexivity |]); repeat split; eauto.
Qed.

Lemma handleEvent_notifications
    (P : Platform) (startTime : Z) (a : Arrival) (e : Event) (c : Cache.cache) :
  a_object a = ObjEvent e ->
  After (FirstTimestamp e) startTime = true ->
  notifications (res_trace (Part000.handleEvent P startTime a c)) =
    if bool_decide (Cache.Get c last_slack_event (a_getTime a) = buildCachedEvent e)
    then [] else [e].
Proof.
  intros Hobj Hafter. pose proof (handleEvent_spec P startTime a c) as H.
  rewrite Hobj, Hafter in H.
  destruct (bool_decide (Cache.Get c last_slack_event (a_getTime a) = buildCachedEvent e)).
  - now rewrite H.
  - destruct H as (fp & _ & H).
    destruct (Part000.handleEvent P startTime a c); simpl; tauto.
Qed.

Lemma Get_lookup (c : Cache.cache) (k v : string) (now : Z) :
  Cache.Get c k now = Some v ->
  exists item, Cache.items c !! k = Some item /\ Cache.Object item = v.
Proof.
  unfold Cache.Get. destruct (Cache.items c !! k) as [item|]; [|discriminate].
  destruct ((0 <? Cache.Expiration item)%Z && (Cache.Expiration item <? now)%Z);
    [discriminate |].
  intros [= <-]. now exists item.
Qed.

Lemma lookup_Get (c : Cache.cache) (k : string) (item : Cache.Item) (now : Z) :
  Cache.items c !! k = Some item ->
  Cache.Get c k now = None \/ Cache.Get c k now = Some (Cache.Object item).
Proof.
  unfold Cache.Get. intros ->.
  destruct ((0 <? Cache.Expiration item)%Z && (Cache.Expiration item <? now)%Z); auto.
Qed.

Lemma lookup_SetItem (c : Cache.cache) (k x : string) (d now : Z) :
  exists exp,
    Cache.items (Cache.SetItem c k x d now) !! k
      = Some {| Cache.Object := x; Cache.Expiration := exp |}.
Proof. eexists. unfold Cache.SetItem. simpl. apply lookup_insert_eq. Qed.

(** After a step that handled a fresh event and returned, the slot holds
    that event's fingerprint. *)
Lemma handleEvent_slot
    (P : Platform) (startTime : Z) (a : Arrival) (e : Event)
    (c c1 : Cache.cache) (t1 : list Action) :
  a_object a = ObjEvent e ->
  After (FirstTimestamp e) startTime = true ->
  Part000.handleEvent P startTime a c = Ok tt c1 t1 ->
  exists item,
    Cache.items c1 !! last_slack_event = Some item /\
    Some (Cache.Object item) = buildCachedEvent e.
Proof.
  intros Hobj Hafter Hrun. pose proof (handleEvent_spec P startTime a c) as H.
  rewrite Hobj, Hafter in H.
  destruct (bool_decide (Cache.Get c last_slack_event (a_getTime a) = buildCachedEvent e))
    eqn:Hdec.
  - rewrite H in Hrun. injection Hrun as <- _.
    apply bool_decide_eq_true_1 in Hdec.
    destruct (buildCachedEvent_Some e) as [fp Hfp]. rewrite Hfp in *.
    apply Get_lookup in Hdec as (item & Hl & <-). eauto.
  - destruct H as (fp & Hfp & H). rewrite Hrun in H. destruct H as (-> & _).
    destruct (lookup_SetItem c last_slack_event fp 0 (a_setTime a)) as [exp Hl].
    rewrite Hl, Hfp. eauto.
Qed.

(** C1, as the code has it.  Of two consecutive events that pass the
    start-time filter and reduce to the same fingerprint, the second invokes
    no notification and leaves the cache as it is, provided the slot has not
    expired when the second is handled.  In every step on a fresh event the
    notifier is invoked exactly when the slot is absent (never set, or
    expired) or holds another fingerprint. *)
Theorem dedup_collapse
    (P : Platform) (start1 start2 : Z) (a1 a2 : Arrival) (e1 e2 : Event)
    (c c1 : Cache.cache) (t1 : list Action) :
  a_object a1 = ObjEvent e1 ->
  a_object a2 = ObjEvent e2 ->
  After (FirstTimestamp e1) start1 = true ->
  After (FirstTimestamp e2) start2 = true ->
  buildCachedEvent e1 = buildCachedEvent e2 ->
  Part000.handleEvent P start1 a1 c = Ok tt c1 t1 ->
  Cache.Get c1 last_slack_event (a_getTime a2) <> None ->
  Part000.handleEvent P start2 a2 c1
    = Ok tt c1 [ActCacheGet last_slack_event; ActReduce e2] /\
  (forall c' : Cache.cache,
      notifications (res_trace (Part000.handleEvent P start2 a2 c')) = [e2] <->
      (Cache.Get c' last_slack_event (a_getTime a2) = None \/
       exists v, Cache.Get c' last_slack_event (a_getTime a2) = Some v /\
                 Some v <> buildCachedEvent e2)) /\
  (forall c' : Cache.cache,
      notifications (res_trace (Part000.handleEvent P start2 a2 c')) = [] <->
      Cache.Get c' last_slack_event (a_getTime a2) = buildCachedEvent e2).
Proof.
  intros Hobj1 Hobj2 Haft1 Haft2 Hsame Hrun Hlive.
  destruct (buildCachedEvent_Some e2) as [fp Hfp].
  split; [| split].
  - destruct (handleEvent_slot P start1 a1 e1 c c1 t1 Hobj1 Haft1 Hrun)
      as (item & Hl & Hitem).
    pose proof (handleEvent_spec P start2 a2 c1) as H.
    rewrite Hobj2, Haft2 in H.
    rewrite bool_decide_eq_true_2 in H; [exact H |].
    destruct (lookup_Get c1 last_slack_event item (a_getTime a2) Hl) as [Hn | ->];
      congruence.
  - intros c'. rewrite (handleEvent_notifications P start2 a2 e2 c' Hobj2 Haft2), Hfp.
    destruct (Cache.Get c' last_slack_event (a_getTime a2)) as [v|].
    + destruct (decide (Some v = Some fp)) as [Heq | Hne].
      * rewrite bool_decide_eq_true_2 by assumption.
        split; [discriminate |]. intros [Hn | (v' & [= <-] & Hne)]; congruence.
      * rewrite bool_decide_eq_false_2 by assumption.
        split; [| reflexivity]. intros _. right. eauto.
    + rewrite bool_decide_eq_false_2 by discriminate. split; auto.
  - intros c'. rewrite (handleEvent_notifications P start2 a2 e2 c' Hobj2 Haft2), Hfp.
    destruct (decide (Cache.Get c' last_slack_event (a_getTime a2) = Some fp)) as [Heq | Hne].
    + rewrite bool_decide_eq_true_2 by assumption. tauto.
    + rewrite bool_decide_eq_false_2 by assumption. split; [discriminate | tauto].
Qed.

Lemma dedup_collapse_witness :
  exists c1 : Cache.cache,
    Part000.handleEvent goodPlatform 0 (arrival evReadinessB (30 * Second)) c1
      = Ok tt c1 [ActCacheGet last_slack_event; ActReduce evReadinessB].
Proof.
  exists (res_cache (Part000.handleEvent goodPlatform 0 (arrival evReadinessA Second) cachesvr)).
  refine (proj1 (dedup_collapse goodPlatform 0 0
                   (arrival evReadinessA Second) (arrival evReadinessB (30 * Second))
                   evReadinessA evReadinessB cachesvr _
                   (res_trace (Part000.handleEvent goodPlatform 0
                                 (arrival evReadinessA Second) cachesvr))
                   eq_refl eq_refl eq_refl eq_refl eq_refl _ _)).
  - vm_compute. reflexivity.
  - vm_compute. discriminate.
Defined.

(** C1 as stated fails: the same event handled again a minute and a second
    later finds the slot expired and is notified once more. *)
Lemma dedup_collapse_fails_after_expiry :
  exists (c1 : Cache.cache) (t1 : list Action),
    After (FirstTimestamp evCrash) 0 = true /\
    Part000.handleEvent goodPlatform 0 (arrival evCrash Second) cachesvr = Ok tt c1 t1 /\
    notifications
      (res_trace (Part000.handleEvent goodPlatform 0 (arrival evCrash (62 * Second)) c1))
      = [evCrash].
Proof.
  exists (res_cache (Part000.handleEvent goodPlatform 0 (arrival evCrash Second) cachesvr)),
         (res_trace (Part000.handleEvent goodPlatform 0 (arrival evCrash Second) cachesvr)).
  split; [reflexivity |]. split; vm_compute; reflexivity.
Qed.

(** ** Streams *)

Lemma rangeChan_cons (body : Arrival -> M unit) (a : Arrival) (rest : list Arrival)
    (c : Cache.cache) :
  rangeChan body (a :: rest) c =
    match body a c with
    | Ok _ c1 t1 =>
        match rangeChan body rest c1 with
        | Ok b c2 t2 => Ok b c2 (t1 ++ t2)
        | Panic msg c2 t2 => Panic msg c2 (t1 ++ t2)
        end
    | Panic msg c1 t1 => Panic msg c1 t1
    end.
Proof. reflexivity. Qed.

(** A step that does nothing can be dropped from a stream. *)
Lemma rangeChan_skip (body : Arrival -> M unit) (a : Arrival) :
  (forall c, body a c = Ok tt c []) ->
  forall before after c,
    rangeChan body (before ++ a :: after) c = rangeChan body (before ++ after) c.
Proof.
  intros Hskip before after. induction before as [|b before IH]; intros c.
  - simpl app. rewrite rangeChan_cons, Hskip.
    now destruct (rangeChan body after c).
  - simpl app. rewrite !rangeChan_cons.
    destruct (body b c) as [[] c1 t1 | msg c1 t1]; [|reflexivity].
    now rewrite IH.
Qed.

(** C5.  An event whose first timestamp is not after the recorded start time
    passes through the loop body without any action: no fingerprint is
    computed, the cache is neither read nor written, the notifier is not
    invoked.  Hence a stream behaves as the same stream without that event. *)
Theorem stale_event_suppressed
    (P : Platform) (startTime : Z) (a : Arrival) (e : Event) :
  a_object a = ObjEvent e ->
  After (FirstTimestamp e) startTime = false ->
  (forall c, Part000.handleEvent P startTime a c = Ok tt c []) /\
  (forall before after c,
      rangeChan (Part000.handleEvent P startTime) (before ++ a :: after) c
        = rangeChan (Part000.handleEvent P startTime) (before ++ after) c).
Proof.
  intros Hobj Hstale.
  assert (Hskip : forall c, Part000.handleEvent P startTime a c = Ok tt c []).
  { intros c. pose proof (handleEvent_spec P startTime a c) as H.
    now rewrite Hobj, Hstale in H. }
  split; [exact Hskip | now apply rangeChan_skip].
Qed.

Lemma stale_event_suppressed_witness :
  Part000.handleEvent goodPlatform (10 * Second) (arrival evCrash (11 * Second)) cachesvr
    = Ok tt cachesvr [].
Proof.
  apply (proj1 (stale_event_suppressed goodPlatform (10 * Second)
                  (arrival evCrash (11 * Second)) evCrash eq_refl eq_refl)).
Defined.

(** ** The cache invariant *)

Lemma notifyThenSet_app (p : option Event) (t1 t2 : list Action) :
  notifyThenSet p t1 -> notifyThenSet None t2 -> notifyThenSet p (t1 ++ t2).
Proof.
  revert p; induction t1 as [|a t1 IH]; intros p H1 H2.
  - simpl in *. now subst.
  - destruct a; simpl in *; try (apply IH; assumption);
      try (destruct H1 as [Hp H1]; split; [exact Hp | apply IH; assumption]).
    contradiction.
Qed.

Lemma notifyThenSet_no_delete (p : option Event) (t : list Action) (k : string) :
  notifyThenSet p t -> ~ In (ActCacheDelete k) t.
Proof.
  revert p; induction t as [|a t IH]; intros p H Hin; [contradiction |].
  destruct Hin as [Hin | Hin].
  - subst a. exact H.
  - destruct a; simpl in H; try (eapply IH; eassumption);
      try (destruct H as [_ H]; eapply IH; eassumption).
    contradiction.
Qed.

Lemma Preserves_bind (m k : M unit) :
  Preserves m -> Preserves k -> Preserves (m ;; k).
Proof.
  intros Hm Hk c c' hist t Hinv.
  unfold mbind, M_bind, bind.
  destruct (m c) as [[] c1 t1 | ] eqn:Em; [|discriminate].
  destruct (k c1) as [[] c2 t2 | ] eqn:Ek; [|discriminate].
  intros [= <- <-].
  destruct (Hm c c1 hist t1 Hinv Em) as [Hinv1 Hd1].
  destruct (Hk c1 c2 (hist ++ notifications t1) t2 Hinv1 Ek) as [Hinv2 Hd2].
  rewrite notifications_app, app_assoc.
  split; [exact Hinv2 | now apply notifyThenSet_app].
Qed.

Lemma Preserves_ret : Preserves (mret tt).
Proof.
  intros c c' hist t Hinv [= <- <-]. simpl. now rewrite app_nil_r.
Qed.

Lemma Preserves_subscribe (startTime : Z) : Preserves (emit (ActSubscribe startTime)).
Proof.
  intros c c' hist t Hinv [= <- <-]. simpl. now rewrite app_nil_r.
Qed.

Lemma Preserves_sleep (d : Z) : Preserves (emit (ActSleep d)).
Proof.
  intros c c' hist t Hinv [= <- <-]. simpl. now rewrite app_nil_r.
Qed.

Lemma Preserves_handleEvent (P : Platform) (startTime : Z) (a : Arrival) :
  Preserves (Part000.handleEvent P startTime a).
Proof.
  intros c c' hist t Hinv Hrun.
  pose proof (handleEvent_spec P startTime a c) as H.
  destruct (a_object a) as [e|st]; [|congruence].
  destruct (After (FirstTimestamp e) startTime).
  - destruct (bool_decide (Cache.Get c last_slack_event (a_getTime a) = buildCachedEvent e)).
    + rewrite H in Hrun. injection Hrun as <- <-. simpl. now rewrite app_nil_r.
    + destruct H as (fp & Hfp & H). rewrite Hrun in H. destruct H as (-> & Hn & Hd).
      split; [| exact Hd]. rewrite Hn, last_snoc. simpl.
      destruct (lookup_SetItem c last_slack_event fp 0 (a_setTime a)) as [exp Hl].
      eauto.
  - rewrite H in Hrun. injection Hrun as <- <-. simpl. now rewrite app_nil_r.
Qed.

Lemma Preserves_rangeChan (P : Platform) (startTime : Z) (ch : list Arrival) :
  Preserves (rangeChan (Part000.handleEvent P startTime) ch).
Proof.
  induction ch as [|a ch IH]; [apply Preserves_ret |].
  apply (Preserves_bind _ _ (Preserves_handleEvent P startTime a) IH).
Qed.

Lemma Preserves_watchEvents (P : Platform) (att : Attempt) :
  Preserves (Part000.watchEvents P att).
Proof.
  unfold Part000.watchEvents. destruct (at_watch att) as [err|ch].
  - intros c c' hist t _ [=].
  - apply Preserves_bind; [apply Preserves_subscribe | apply Preserves_rangeChan].
Qed.

Lemma Preserves_retryDriver (P : Platform) (attempts : list Attempt) :
  Preserves (Part000.retryDriver P attempts).
Proof.
  induction attempts as [|att rest IH]; [apply Preserves_ret |].
  apply Preserves_bind; [apply Preserves_watchEvents |].
  apply Preserves_bind; [apply Preserves_sleep | exact IH].
Qed.

(** C6.  Between any two steps of any processing sequence of a process that
    is still running, a read of the slot ["last_slack_event"] finds it
    absent or holding the fingerprint of the event notified last; every
    notification is followed by the write of that event's fingerprint before
    the cache is read again, and the trace holds no deletion. *)
Theorem cache_holds_last_notified
    (P : Platform) (completed : list Attempt) (cur : Attempt)
    (c : Cache.cache) (t : list Action) :
  processing P completed cur cachesvr = Ok tt c t ->
  (forall now : Z,
      Cache.Get c last_slack_event now = None \/
      exists e, last (notifications t) = Some e /\
                Cache.Get c last_slack_event now = buildCachedEvent e) /\
  notifyThenSet None t /\
  (forall k, ~ In (ActCacheDelete k) t).
Proof.
  intros Hrun.
  assert (Hp : Preserves (processing P completed cur)).
  { apply Preserves_bind; [apply Preserves_retryDriver | apply Preserves_watchEvents]. }
  destruct (Hp cachesvr c [] t) as [Hslot Hd]; [reflexivity | exact Hrun |].
  split; [| split; [exact Hd | intros k; eapply notifyThenSet_no_delete; exact Hd]].
  intros now. simpl in Hslot.
  destruct (last (notifications t)) as [e|]; simpl in Hslot.
  - destruct Hslot as (fp & exp & Hfp & Hl).
    destruct (lookup_Get c last_slack_event _ now Hl) as [Hn | Hs]; [now left |].
    right. exists e. split; [reflexivity |]. now rewrite Hs, Hfp.
  - left. unfold Cache.Get. now rewrite Hslot.
Qed.

Lemma cache_holds_last_notified_witness :
  Cache.Get
    (res_cache
       (processing goodPlatform
          [watchOpens 0 [arrival evCrash 1; arrival evCrash 2]]
          (watchOpens 3 [arrival evOOM 20]) cachesvr))
    last_slack_event 21
  = Some "ns1_app_OOMKilled".
Proof.
  destruct (cache_holds_last_notified goodPlatform
              [watchOpens 0 [arrival evCrash 1; arrival evCrash 2]]
              (watchOpens 3 [arrival evOOM 20])
              (res_cache (processing goodPlatform
                            [watchOpens 0 [arrival evCrash 1; arrival evCrash 2]]
                            (watchOpens 3 [arrival evOOM 20]) cachesvr))
              (res_trace (processing goodPlatform
                            [watchOpens 0 [arrival evCrash 1; arrival evCrash 2]]
                            (watchOpens 3 [arrival evOOM 20]) cachesvr)))
    as [Hslot _]; [vm_compute; reflexivity |].
  destruct (Hslot 21%Z) as [Hnone | (e & _ & _)]; [vm_compute in Hnone; discriminate |].
  vm_compute. reflexivity.
Defined.

(** ** The retry driver *)

(** C8, as the code has it.  A failure to open the subscription panics, and
    the panic ends the retry driver: no sleep, no further attempt.  An
    attempt whose stream was opened and handled to its close is followed by
    the sleep of five seconds and the next attempt. *)
Theorem subscription_failure_is_fatal
    (P : Platform) (startTime : Z) (rest : list Attempt) (c : Cache.cache) :
  (forall err : string,
      Part000.retryDriver P (watchFails startTime err :: rest) c = Panic err c []) /\
  (forall (ch : list Arrival) (c' : Cache.cache) (t : list Action),
      Part000.watchEvents P (watchOpens startTime ch) c = Ok tt c' t ->
      Part000.retryDriver P (watchOpens startTime ch :: rest) c =
        match Part000.retryDriver P rest c' with
        | Ok b c2 t2 => Ok b c2 (t ++ ActSleep (5 * Second) :: t2)
        | Panic msg c2 t2 => Panic msg c2 (t ++ ActSleep (5 * Second) :: t2)
        end).
Proof.
  split.
  - intros err. reflexivity.
  - intros ch c' t Hrun.
    change (Part000.retryDriver P (watchOpens startTime ch :: rest) c)
      with (bind (Part000.watchEvents P (watchOpens startTime ch))
              (fun _ => bind (emit (ActSleep (5 * Second)))
                          (fun _ => Part000.retryDriver P rest)) c).
    unfold bind at 1. rewrite Hrun. unfold bind, emit.
    now destruct (Part000.retryDriver P rest c').
Qed.

Lemma subscription_failure_is_fatal_witness :
  notifications
    (res_trace
       (Part000.retryDriver goodPlatform
          [watchOpens 0 [arrival evCrash 1]; watchOpens 6 [arrival evOOM 7]] cachesvr))
  = [evCrash; evOOM].
Proof.
  rewrite (proj2 (subscription_failure_is_fatal goodPlatform 0
                    [watchOpens 6 [arrival evOOM 7]] cachesvr)
             [arrival evCrash 1]
             (res_cache (Part000.watchEvents goodPlatform
                           (watchOpens 0 [arrival evCrash 1]) cachesvr))
             (res_trace (Part000.watchEvents goodPlatform
                           (watchOpens 0 [arrival evCrash 1]) cachesvr)));
    vm_compute; reflexivity.
Defined.

(** C8 as stated fails: after a failed [Watch] the driver has panicked, the
    attempt that would follow is never made. *)
Lemma subscription_failure_crashes :
  Part000.retryDriver goodPlatform
    [watchFails 0 "connection refused"; watchOpens 5 [arrival evCrash 6]] cachesvr
  = Panic "connection refused" cachesvr [].
Proof. reflexivity. Qed.

(** ** The two listings *)

Section Listings.

Variable P : Platform.
Variable startTime : Z.
Variable E : Event -> Prop.
Hypothesis HE : MessagesIdentify E.

Lemma Related_Get (c1 c2 : Cache.cache) (now : Z) :
  Related E c1 c2 ->
  (Cache.Get c1 last_slack_event now = None /\
   Cache.Get c2 last_slack_event now = None) \/
  exists e0 fp,
    E e0 /\ buildCachedEvent e0 = Some fp /\
    Cache.Get c1 last_slack_event now = Some (Message e0) /\
    Cache.Get c2 last_slack_event now = Some fp.
Proof.
  intros [_ [[H1 H2] | (e0 & fp & exp & He0 & Hfp & H1 & H2)]]; unfold Cache.Get.
  - left. now rewrite H1, H2.
  - rewrite H1, H2. simpl.
    destruct ((0 <? exp)%Z && (exp <? now)%Z); [now left |].
    right. exists e0, fp. auto.
Qed.

Lemma Related_SetItem (c1 c2 : Cache.cache) (e : Event) (fp : string) (now : Z) :
  Related E c1 c2 -> E e -> buildCachedEvent e = Some fp ->
  Related E (Cache.SetItem c1 last_slack_event (Message e) 0 now)
            (Cache.SetItem c2 last_slack_event fp 0 now).
Proof.
  intros [Hde _] He Hfp. split; [exact Hde |].
  right. exists e, fp. eexists. split; [exact He |]. split; [exact Hfp |].
  unfold Cache.SetItem. simpl. rewrite !lookup_insert_eq, Hde. split; reflexivity.
Qed.

(** One step of [src/main.go] against one step of part_000. *)
Lemma handleEvent_sim (a : Arrival) (c1 c2 : Cache.cache) :
  (forall e, a_object a = ObjEvent e -> E e) ->
  Related E c1 c2 ->
  match MainGo.handleEvent P startTime a c1, Part000.handleEvent P startTime a c2 with
  | Ok _ c1' t1, Ok _ c2' t2 =>
      notifications t1 = notifications t2 /\ Related E c1' c2'
  | Panic _ _ t1, Panic _ _ t2 => notifications t1 = notifications t2
  | _, _ => False
  end.
Proof.
  intros Hin Hrel.
  unfold MainGo.handleEvent, Part000.handleEvent.
  destruct (a_object a) as [e|st]; [|reflexivity].
  specialize (Hin e eq_refl).
  destruct (After (FirstTimestamp e) startTime); [|now split].
  destruct (buildCachedEvent_Some e) as [fp Hfp].
  unfold reduce. rewrite Hfp.
  cbv beta iota delta [mbind M_bind bind cacheGet cacheSet emit mret M_ret ret].
  pose proof (Related_SetItem c1 c2 e fp (a_setTime a) Hrel Hin Hfp) as Hset.
  destruct (Related_Get c1 c2 (a_getTime a) Hrel)
    as [[-> ->] | (e0 & fp0 & He0 & Hfp0 & -> & ->)].
  - rewrite !notifySlack_eq.
    destruct (jsonMarshal P (slackMessage P e)) as [body|]; [|reflexivity].
    destruct (NewRequest P "POST" (Getenv P "SLACK_WEBHOOK_URL") body) as [req|];
      [|reflexivity].
    split; [| exact Hset]. rewrite !notifications_app. reflexivity.
  - assert (Hdec : String.eqb (Message e0) (Message e) = String.eqb fp0 fp).
    { destruct (String.eqb_spec (Message e0) (Message e)) as [Hm | Hm];
        destruct (String.eqb_spec fp0 fp) as [Hf | Hf]; try reflexivity.
      - apply (HE e0 e He0 Hin) in Hm. congruence.
      - exfalso. apply Hm, (HE e0 e He0 Hin). congruence. }
    rewrite Hdec. destruct (String.eqb fp0 fp); simpl.
    + split; [reflexivity | exact Hrel].
    + rewrite !notifySlack_eq.
      destruct (jsonMarshal P (slackMessage P e)) as [body|]; [|reflexivity].
      destruct (NewRequest P "POST" (Getenv P "SLACK_WEBHOOK_URL") body) as [req|];
        [|reflexivity].
      split; [| exact Hset]. now destruct (a_doErr a).
Qed.

Lemma rangeChan_sim (ch : list Arrival) :
  (forall e, delivers ch e -> E e) ->
  forall c1 c2, Related E c1 c2 ->
    notifications (res_trace (rangeChan (MainGo.handleEvent P startTime) ch c1))
      = notifications (res_trace (rangeChan (Part000.handleEvent P startTime) ch c2)) /\
    panicked (rangeChan (MainGo.handleEvent P startTime) ch c1)
      = panicked (rangeChan (Part000.handleEvent P startTime) ch c2).
Proof.
  induction ch as [|a ch IH]; intros Hin c1 c2 Hrel; [now split |].
  rewrite !rangeChan_cons.
  assert (Ha : forall e, a_object a = ObjEvent e -> E e).
  { intros e He. apply Hin. exists a. split; [now left | exact He]. }
  assert (Hch : forall e, delivers ch e -> E e).
  { intros e (a' & Hin' & He). apply Hin. exists a'. split; [now right | exact He]. }
  pose proof (handleEvent_sim a c1 c2 Ha Hrel) as Hstep.
  destruct (MainGo.handleEvent P startTime a c1) as [[] c1' t1 | m1 c1' t1];
    destruct (Part000.handleEvent P startTime a c2) as [[] c2' t2 | m2 c2' t2];
    try contradiction.
  - destruct Hstep as [Hn Hrel'].
    destruct (IH Hch c1' c2' Hrel') as [IHn IHp].
    destruct (rangeChan (MainGo.handleEvent P startTime) ch c1');
      destruct (rangeChan (Part000.handleEvent P startTime) ch c2');
      simpl in *; rewrite !notifications_app, Hn, IHn; split; congruence.
  - now split.
Qed.

End Listings.

(** C10, as the code has it.  On a stream in which two events have the same
    raw message exactly when they reduce to the same fingerprint, the watch
    loop of [src/main.go] and the watch loop of part_000, both started on the
    empty cache, notify for the same events in the same order. *)
Theorem listings_agree_when_messages_identify
    (P : Platform) (startTime : Z) (ch : list Arrival) :
  MessagesIdentify (delivers ch) ->
  notifications (res_trace (rangeChan (MainGo.handleEvent P startTime) ch cachesvr))
    = notifications (res_trace (rangeChan (Part000.handleEvent P startTime) ch cachesvr)).
Proof.
  intros HE.
  apply (rangeChan_sim P startTime (delivers ch) HE ch); [auto |].
  split; [reflexivity | left; split; reflexivity].
Qed.

Lemma listings_agree_when_messages_identify_witness :
  notifications (res_trace (rangeChan (MainGo.handleEvent goodPlatform 0)
                              [arrival evCrash 1; arrival evCrash 2; arrival evOOM 3]
                              cachesvr))
  = notifications (res_trace (rangeChan (Part000.handleEvent goodPlatform 0)
                                [arrival evCrash 1; arrival evCrash 2; arrival evOOM 3]
                                cachesvr)).
Proof.
  apply listings_agree_when_messages_identify.
  intros e1 e2 (a1 & Hin1 & Ho1) (a2 & Hin2 & Ho2).
  simpl in Hin1, Hin2.
  destruct Hin1 as [<- | [<- | [<- | []]]]; injection Ho1 as <-;
    destruct Hin2 as [<- | [<- | [<- | []]]]; injection Ho2 as <-;
    split; intros H; try reflexivity; vm_compute in H; discriminate.
Defined.

(** C10 as stated fails in both directions.  The same message from another
    namespace is notified by part_000 only; a health-check message that
    differs behind the marker is notified by [src/main.go] only. *)
Lemma listings_disagree :
  (notifications (res_trace (rangeChan (MainGo.handleEvent goodPlatform 0)
                               [arrival evCrash 1; arrival evCrashOther 2] cachesvr))
     = [evCrash] /\
   notifications (res_trace (rangeChan (Part000.handleEvent goodPlatform 0)
                               [arrival evCrash 1; arrival evCrashOther 2] cachesvr))
     = [evCrash; evCrashOther]) /\
  (notifications (res_trace (rangeChan (MainGo.handleEvent goodPlatform 0)
                               [arrival evReadinessA 1; arrival evReadinessB 2] cachesvr))
     = [evReadinessA; evReadinessB] /\
   notifications (res_trace (rangeChan (Part000.handleEvent goodPlatform 0)
                               [arrival evReadinessA 1; arrival evReadinessB 2] cachesvr))
     = [evReadinessA]).
Proof. repeat split; vm_compute; reflexivity. Qed.


(** * Further properties *)

(** ** More on the reducer *)

Section ReducerMore.

Import Strings.

Lemma HasPrefix_cons (c d : ascii) (s pre : string) :
  HasPrefix (String d s) (String c pre) =
    if ascii_dec c d then HasPrefix s pre else false.
Proof. reflexivity. Qed.

Lemma str_inj_head (a b c : string) : a +:+ b = a +:+ c -> b = c.
Proof.
  induction a as [|x a IH]; [now rewrite !str_nil_l |].
  rewrite !str_cons. intros [= H]. auto.
Qed.

Lemma mapByte_length (from to : ascii) (s : string) :
  String.length (mapByte from to s) = String.length s.
Proof. induction s as [|c s IH]; simpl; [reflexivity | now rewrite IH]. Qed.

Lemma mapByte_no_space (s : string) : Index (mapByte " " "_" s) " " = None.
Proof.
  induction s as [|c s IH]; [reflexivity |].
  simpl mapByte. rewrite Index_unfold, HasPrefix_cons, IH.
  destruct (Ascii.eqb_spec c " ") as [-> | Hne].
  - now destruct (ascii_dec " " "_").
  - destruct (ascii_dec " " c); [congruence | reflexivity].
Qed.

(** A byte that does not start [sep] stays in front of the cut. *)
Lemma firstCut_cons_ne (c d : ascii) (s sep : string) :
  c <> d ->
  firstCut (String c s) (String d sep) = String c (firstCut s (String d sep)).
Proof.
  intros Hne. unfold firstCut. rewrite Index_unfold, HasPrefix_cons.
  destruct (ascii_dec d c); [congruence |].
  now destruct (Index s (String d sep)).
Qed.

Lemma firstCut_prefix (s sep : string) : HasPrefix s (firstCut s sep) = true.
Proof.
  apply HasPrefix_iff. unfold firstCut.
  destruct (Index s sep) as [m|].
  - exists (drop m s). symmetry. apply take_drop.
  - exists "". clear. induction s as [|c s IH]; [reflexivity |].
    now rewrite str_cons, <- IH.
Qed.

(** The word that makes a message a health-check message survives the cut
    and the replacement of spaces. *)
Lemma normalized_keeps_word (msg w : string) :
  w = "Readiness" \/ w = "Liveness" ->
  HasPrefix msg w = true ->
  HasPrefix (mapByte " " "_" (firstCut msg healthCheckMarker)) w = true.
Proof.
  intros Hw Hp. apply HasPrefix_iff in Hp as [r ->]. apply HasPrefix_iff.
  exists (mapByte " " "_" (firstCut r healthCheckMarker)).
  destruct Hw as [-> | ->]; unfold healthCheckMarker;
    repeat (rewrite str_cons, firstCut_cons_ne by discriminate);
    now rewrite str_nil_l.
Qed.

Lemma normalized_healthCheck (msg : string) :
  isHealthCheck msg = true -> isHealthCheck (normalizedMessage msg) = true.
Proof.
  intros Hh. unfold normalizedMessage. rewrite Hh.
  unfold isHealthCheck in *. apply orb_true_iff in Hh. apply orb_true_iff.
  destruct Hh as [Hh | Hh]; [left | right];
    (apply normalized_keeps_word; [auto | exact Hh]).
Qed.

End ReducerMore.

(** X1.  The fingerprint depends on the subject namespace, the first
    hyphen-segment of the subject name and the message only: kind, reason,
    timestamp and the rest of the name do not enter it. *)
Theorem fingerprint_ignores_the_rest (e1 e2 : Event) (seg : string) :
  Namespace (InvolvedObject e1) = Namespace (InvolvedObject e2) ->
  FirstSegment "-" (Name (InvolvedObject e1)) seg ->
  FirstSegment "-" (Name (InvolvedObject e2)) seg ->
  Message e1 = Message e2 ->
  buildCachedEvent e1 = buildCachedEvent e2.
Proof.
  intros Hns H1 H2 Hm.
  apply FirstSegment_hyphen_unique in H1, H2.
  rewrite !buildCachedEvent_eq, Hns, Hm, <- H1, <- H2. reflexivity.
Qed.

Lemma fingerprint_ignores_the_rest_witness :
  buildCachedEvent (mkEvent "shop" "Pod" "payments-api-7d8f9c-xk2pq" "BackOff" "OOMKilled" 10)
  = buildCachedEvent (mkEvent "shop" "Deployment" "payments-db" "Failed" "OOMKilled" 99).
Proof.
  apply (fingerprint_ignores_the_rest _ _ "payments"); try reflexivity.
  - split; [reflexivity | right; exists "api-7d8f9c-xk2pq"; reflexivity].
  - split; [reflexivity | right; exists "db"; reflexivity].
Defined.

(** X2.  On one workload (same namespace, same first segment) a message that
    is not a health-check message shares its fingerprint with no other
    message, health-check or not. *)
Theorem ordinary_message_never_collides (e1 e2 : Event) (seg : string) :
  Namespace (InvolvedObject e1) = Namespace (InvolvedObject e2) ->
  FirstSegment "-" (Name (InvolvedObject e1)) seg ->
  FirstSegment "-" (Name (InvolvedObject e2)) seg ->
  isHealthCheck (Message e2) = false ->
  (buildCachedEvent e1 = buildCachedEvent e2 <-> Message e1 = Message e2).
Proof.
  intros Hns H1 H2 Hord.
  apply FirstSegment_hyphen_unique in H1, H2.
  rewrite !buildCachedEvent_eq, Hns, <- H1, <- H2. split.
  - intros [= H]. unfold Strings.Join in H. rewrite <- !str_assoc in H.
    apply str_inj_head in H.
    destruct (isHealthCheck (Message e1)) eqn:Hh1.
    + apply normalized_healthCheck in Hh1. rewrite H in Hh1.
      unfold normalizedMessage in Hh1. rewrite Hord in Hh1. congruence.
    + unfold normalizedMessage in H. now rewrite Hh1, Hord in H.
  - intros Hm. now rewrite Hm.
Qed.

Lemma ordinary_message_never_collides_witness :
  buildCachedEvent evReadinessA = buildCachedEvent evCrash <->
  Message evReadinessA = Message evCrash.
Proof.
  apply (ordinary_message_never_collides evReadinessA evCrash "app").
  - reflexivity.
  - split; [reflexivity | right; exists "abc123"; reflexivity].
  - split; [reflexivity | right; exists "abc123"; reflexivity].
  - reflexivity.
Defined.

(** X3.  The message component of a health-check message is a prefix of the
    message with its spaces turned into underscores: it holds no space, is no
    longer than the message, and still begins with the word that made the
    message a health-check message. *)
Theorem healthcheck_component (event : Event) :
  isHealthCheck (Message event) = true ->
  exists seg q : string,
    buildCachedEvent_msgc event
      = Some [Namespace (InvolvedObject event); seg; mapByte " " "_" q] /\
    Strings.HasPrefix (Message event) q = true /\
    Strings.Index (mapByte " " "_" q) " " = None /\
    String.length (mapByte " " "_" q) <= String.length (Message event) /\
    isHealthCheck (mapByte " " "_" q) = true.
Proof.
  intros Hh.
  exists (firstCut (Name (InvolvedObject event)) "-"),
         (firstCut (Message event) healthCheckMarker).
  pose proof (firstCut_prefix (Message event) healthCheckMarker) as Hq.
  split; [| split; [exact Hq | split; [apply mapByte_no_space | split]]].
  - rewrite buildCachedEvent_msgc_eq. unfold normalizedMessage. now rewrite Hh.
  - rewrite mapByte_length. apply HasPrefix_iff in Hq as [r Hr].
    rewrite Hr at 2. rewrite str_length. lia.
  - pose proof (normalized_healthCheck (Message event) Hh) as Hn.
    unfold normalizedMessage in Hn. now rewrite Hh in Hn.
Qed.

Lemma healthcheck_component_witness :
  exists seg q : string,
    buildCachedEvent_msgc evReadinessA = Some ["ns1"; seg; mapByte " " "_" q] /\
    Strings.Index (mapByte " " "_" q) " " = None.
Proof.
  destruct (healthcheck_component evReadinessA eq_refl) as (seg & q & H & _ & Hs & _).
  exists seg, q. split; assumption.
Defined.

(** ** More on the notifier *)

Lemma HasPrefix_app_same (a x y : string) :
  Strings.HasPrefix (a +:+ x) (a +:+ y) = Strings.HasPrefix x y.
Proof.
  induction a as [|c a IH]; [now rewrite !str_nil_l |].
  rewrite !str_cons, HasPrefix_cons. now destruct (ascii_dec c c).
Qed.

(** X4.  The two links of the payload join the console address and the path
    differently: the title link puts a slash between them, the author link
    puts none, whatever the console address is. *)
Theorem console_links_disagree (P : Platform) (event : Event) :
  Strings.HasPrefix (resourceUrl P event)
    (Getenv P "OPENSHIFT_CONSOLE_URL" +:+ "/project/"
       +:+ Namespace (InvolvedObject event) +:+ "/") = true /\
  Strings.HasPrefix (monitoringUrl P event)
    (Getenv P "OPENSHIFT_CONSOLE_URL" +:+ "project/"
       +:+ Namespace (InvolvedObject event) +:+ "/") = true /\
  Strings.HasPrefix (monitoringUrl P event)
    (Getenv P "OPENSHIFT_CONSOLE_URL" +:+ "/") = false.
Proof.
  unfold resourceUrl, monitoringUrl. repeat split.
  - rewrite !HasPrefix_app_same. apply HasPrefix_iff. eexists.
    change "/browse/" with ("/" +:+ "browse/"). rewrite !str_assoc. reflexivity.
  - rewrite !HasPrefix_app_same. apply HasPrefix_iff. eexists.
    change "/monitoring" with ("/" +:+ "monitoring"). reflexivity.
  - rewrite HasPrefix_app_same. reflexivity.
Qed.

(** X5.  Whatever the platform answers, [notifySlack] leaves the cache as it
    is, hands at most one request to the HTTP client, sends it with the
    content type [application/json], and has sent nothing when it panics. *)
Theorem notifier_posts_at_most_once
    (P : Platform) (doErr : bool) (event : Event) (c : Cache.cache) :
  res_cache (notifySlack P doErr event c) = c /\
  notifications (res_trace (notifySlack P doErr event c)) = [event] /\
  length (posts (res_trace (notifySlack P doErr event c))) <= 1 /\
  Forall (fun req => Header req !! "Content-Type" = Some "application/json")
         (posts (res_trace (notifySlack P doErr event c))) /\
  (panicked (notifySlack P doErr event c) = true ->
   posts (res_trace (notifySlack P doErr event c)) = []).
Proof.
  rewrite notifySlack_eq.
  destruct (jsonMarshal P (slackMessage P event)) as [body|];
    [| simpl; repeat split; auto].
  destruct (NewRequest P "POST" (Getenv P "SLACK_WEBHOOK_URL") body) as [req|];
    [| simpl; repeat split; auto].
  destruct doErr; simpl; repeat split; try lia; try discriminate;
    (constructor; [apply lookup_insert_eq | constructor]).
Qed.

Lemma notifier_posts_at_most_once_witness :
  posts (res_trace (notifySlack badWebhookUrl true evCrash cachesvr)) = [].
Proof.
  apply (notifier_posts_at_most_once badWebhookUrl true evCrash cachesvr).
  reflexivity.
Defined.

(** X6.  [notifySlack] panics exactly when serialization fails or request
    construction fails; the outcome of the POST has no part in it. *)
Theorem notifier_panics_iff
    (P : Platform) (doErr : bool) (event : Event) (c : Cache.cache) :
  panicked (notifySlack P doErr event c) = true <->
  (jsonMarshal P (slackMessage P event) = None \/
   exists body,
     jsonMarshal P (slackMessage P event) = Some body /\
     NewRequest P "POST" (Getenv P "SLACK_WEBHOOK_URL") body = None).
Proof.
  rewrite notifySlack_eq.
  destruct (jsonMarshal P (slackMessage P event)) as [body|].
  - destruct (NewRequest P "POST" (Getenv P "SLACK_WEBHOOK_URL") body) as [req|] eqn:Hr;
      simpl.
    + split; [discriminate |]. intros [H | (b & [= <-] & H)]; congruence.
    + split; [| reflexivity]. intros _. right. eauto.
  - simpl. split; auto.
Qed.

(** ** More on the watch loop of part_000 *)

Lemma Get_SetItem (c : Cache.cache) (k x : string) (t now : Z) :
  Cache.defaultExpiration c = (1 * Minute)%Z ->
  Cache.Get (Cache.SetItem c k x 0 t) k now =
    if (0 <? t + 1 * Minute)%Z && (t + 1 * Minute <? now)%Z then None else Some x.
Proof.
  intros Hde. unfold Cache.Get, Cache.SetItem. simpl.
  rewrite lookup_insert_eq, Hde. reflexivity.
Qed.

(** A step on a fresh event whose fingerprint the slot does not show, on a
    platform that lets the notifier return. *)
Lemma handleEvent_notifies
    (P : Platform) (startTime : Z) (a : Arrival) (e : Event) (c : Cache.cache)
    (fp body : string) (req : Request) :
  a_object a = ObjEvent e ->
  After (FirstTimestamp e) startTime = true ->
  buildCachedEvent e = Some fp ->
  Cache.Get c last_slack_event (a_getTime a) <> Some fp ->
  jsonMarshal P (slackMessage P e) = Some body ->
  NewRequest P "POST" (Getenv P "SLACK_WEBHOOK_URL") body = Some req ->
  exists t,
    Part000.handleEvent P startTime a c
      = Ok tt (Cache.SetItem c last_slack_event fp 0 (a_setTime a)) t /\
    notifications t = [e] /\
    posts t = [HeaderSet req "Content-Type" "application/json"] /\
    (a_doErr a = true -> In (ActPrint "Unable to reach the server.") t).
Proof.
  intros Hobj Hafter Hfp Hget Hm Hr.
  unfold Part000.handleEvent. rewrite Hobj, Hafter.
  unfold reduce. rewrite Hfp.
  cbv beta iota delta [mbind M_bind bind cacheGet cacheSet emit mret M_ret ret].
  destruct (Cache.Get c last_slack_event (a_getTime a)) as [v|].
  - destruct (String.eqb_spec v fp) as [-> | Hne]; [congruence |]. simpl.
    rewrite !notifySlack_eq, Hm, Hr.
    eexists. split; [reflexivity |].
    destruct (a_doErr a); simpl; repeat split; try discriminate; auto 10.
  - rewrite !notifySlack_eq, Hm, Hr.
    eexists. split; [reflexivity |].
    destruct (a_doErr a); simpl; repeat split; try discriminate; auto 10.
Qed.

(** X7.  A failed POST is not made up for: the fingerprint is cached all the
    same, and the same condition reported again within the minute is
    suppressed although nobody was told. *)
Theorem failed_post_is_not_retried
    (P : Platform) (start1 start2 : Z) (a1 a2 : Arrival) (e1 e2 : Event)
    (c : Cache.cache) (body : string) (req : Request) :
  Cache.defaultExpiration c = (1 * Minute)%Z ->
  a_object a1 = ObjEvent e1 ->
  a_object a2 = ObjEvent e2 ->
  After (FirstTimestamp e1) start1 = true ->
  After (FirstTimestamp e2) start2 = true ->
  buildCachedEvent e1 = buildCachedEvent e2 ->
  Cache.Get c last_slack_event (a_getTime a1) <> buildCachedEvent e1 ->
  jsonMarshal P (slackMessage P e1) = Some body ->
  NewRequest P "POST" (Getenv P "SLACK_WEBHOOK_URL") body = Some req ->
  a_doErr a1 = true ->
  (a_getTime a2 <= a_setTime a1 + 1 * Minute)%Z ->
  exists c1 t1,
    Part000.handleEvent P start1 a1 c = Ok tt c1 t1 /\
    In (ActPrint "Unable to reach the server.") t1 /\
    Part000.handleEvent P start2 a2 c1
      = Ok tt c1 [ActCacheGet last_slack_event; ActReduce e2].
Proof.
  intros Hde Ho1 Ho2 Ha1 Ha2 Hsame Hget Hm Hr Herr Hwin.
  destruct (buildCachedEvent_Some e1) as [fp Hfp]. rewrite Hfp in Hget.
  destruct (handleEvent_notifies P start1 a1 e1 c fp body req Ho1 Ha1 Hfp Hget Hm Hr)
    as (t1 & Hrun & _ & _ & Hprint).
  exists (Cache.SetItem c last_slack_event fp 0 (a_setTime a1)), t1.
  split; [exact Hrun |]. split; [auto |].
  pose proof (handleEvent_spec P start2 a2
                (Cache.SetItem c last_slack_event fp 0 (a_setTime a1))) as H.
  rewrite Ho2, Ha2, (Get_SetItem _ _ _ _ _ Hde), <- Hsame, Hfp in H.
  replace (a_setTime a1 + 1 * Minute <? a_getTime a2)%Z with false in H
    by (symmetry; apply Z.ltb_ge; exact Hwin).
  rewrite andb_false_r, bool_decide_eq_true_2 in H by reflexivity.
  exact H.
Qed.

Lemma failed_post_is_not_retried_witness :
  exists c1 t1,
    Part000.handleEvent goodPlatform 0
      {| a_object := ObjEvent evCrash; a_getTime := 1; a_setTime := 2; a_doErr := true |}
      cachesvr = Ok tt c1 t1 /\
    In (ActPrint "Unable to reach the server.") t1 /\
    Part000.handleEvent goodPlatform 0 (arrival evCrash (30 * Second)) c1
      = Ok tt c1 [ActCacheGet last_slack_event; ActReduce evCrash].
Proof.
  apply (failed_post_is_not_retried goodPlatform 0 0
           {| a_object := ObjEvent evCrash; a_getTime := 1; a_setTime := 2;
              a_doErr := true |}
           (arrival evCrash (30 * Second)) evCrash evCrash cachesvr "{}"
           {| Method := "POST"; URL := "http://hooks.example/T0"; Body := "{}";
              Header := ∅ |});
    try reflexivity.
  - vm_compute. discriminate.
  - vm_compute. discriminate.
Defined.

(** X8.  The dedup window is the minute after the last write: an event with
    the cached fingerprint is suppressed if the cache is read within a minute
    of the write that cached it, and notified again after that. *)
Theorem dedup_window_is_one_minute
    (P : Platform) (startTime : Z) (a : Arrival) (e : Event)
    (c0 : Cache.cache) (fp : string) (written : Z) :
  Cache.defaultExpiration c0 = (1 * Minute)%Z ->
  (0 < written + 1 * Minute)%Z ->
  a_object a = ObjEvent e ->
  After (FirstTimestamp e) startTime = true ->
  buildCachedEvent e = Some fp ->
  (notifications
     (res_trace (Part000.handleEvent P startTime a
                   (Cache.SetItem c0 last_slack_event fp 0 written))) = []
   <-> (a_getTime a <= written + 1 * Minute)%Z) /\
  (notifications
     (res_trace (Part000.handleEvent P startTime a
                   (Cache.SetItem c0 last_slack_event fp 0 written))) = [e]
   <-> (written + 1 * Minute < a_getTime a)%Z).
Proof.
  intros Hde Hpos Hobj Hafter Hfp.
  rewrite (handleEvent_notifications P startTime a e _ Hobj Hafter).
  rewrite (Get_SetItem _ _ _ _ _ Hde), Hfp.
  replace (0 <? written + 1 * Minute)%Z with true
    by (symmetry; apply Z.ltb_lt; exact Hpos).
  simpl andb.
  destruct (Z.ltb_spec (written + 1 * Minute) (a_getTime a)) as [Hlt | Hge].
  - rewrite bool_decide_eq_false_2 by discriminate.
    split; split; intros H; try reflexivity; try discriminate; try lia.
  - rewrite bool_decide_eq_true_2 by reflexivity.
    split; split; intros H; try reflexivity; try discriminate; try lia.
Qed.

Lemma dedup_window_is_one_minute_witness :
  notifications
    (res_trace (Part000.handleEvent goodPlatform 0 (arrival evCrash (61 * Second))
                  (Cache.SetItem cachesvr last_slack_event "ns1_app_CrashLoopBackOff" 0
                     Second))) = [] /\
  notifications
    (res_trace (Part000.handleEvent goodPlatform 0 (arrival evCrash (61 * Second + 1))
                  (Cache.SetItem cachesvr last_slack_event "ns1_app_CrashLoopBackOff" 0
                     Second))) = [evCrash].
Proof.
  split.
  - apply (dedup_window_is_one_minute goodPlatform 0 (arrival evCrash (61 * Second))
             evCrash cachesvr "ns1_app_CrashLoopBackOff" Second);
      reflexivity.
  - apply (dedup_window_is_one_minute goodPlatform 0 (arrival evCrash (61 * Second + 1))
             evCrash cachesvr "ns1_app_CrashLoopBackOff" Second);
      reflexivity.
Defined.

(** ** Panics end the process *)

(** A panic in the loop body ends the stream where it stands. *)
Lemma rangeChan_panic (body : Arrival -> M unit) (before after : list Arrival)
    (a : Arrival) (c c1 c2 : Cache.cache) (t1 t2 : list Action) (msg : string) :
  rangeChan body before c = Ok tt c1 t1 ->
  body a c1 = Panic msg c2 t2 ->
  rangeChan body (before ++ a :: after) c = Panic msg c2 (t1 ++ t2).
Proof.
  revert c t1. induction before as [|b before IH]; intros c t1 Hrun Hbody.
  - injection Hrun as <- <-. simpl app. now rewrite rangeChan_cons, Hbody.
  - simpl app. rewrite rangeChan_cons in *.
    destruct (body b c) as [[] cb tb | ]; [| discriminate].
    destruct (rangeChan body before cb) as [[] cr tr | ] eqn:Hrest; [| discriminate].
    injection Hrun as <- <-.
    rewrite (IH cb tr Hrest Hbody). now rewrite app_assoc.
Qed.

Lemma retryDriver_panic (P : Platform) (startTime : Z) (ch : list Arrival)
    (more : list Attempt) (c c' : Cache.cache) (t : list Action) (msg : string) :
  rangeChan (Part000.handleEvent P startTime) ch c = Panic msg c' t ->
  Part000.retryDriver P (watchOpens startTime ch :: more) c
    = Panic msg c' (ActSubscribe startTime :: t).
Proof.
  intros Hrun.
  change (Part000.retryDriver P (watchOpens startTime ch :: more) c)
    with (bind (bind (emit (ActSubscribe startTime))
                  (fun _ => rangeChan (Part000.handleEvent P startTime) ch))
            (fun _ => bind (emit (ActSleep (5 * Second)))
                        (fun _ => Part000.retryDriver P more)) c).
  unfold bind, emit. now rewrite Hrun.
Qed.

Lemma MainGo_retryDriver_panic (P : Platform) (startTime : Z) (ch : list Arrival)
    (more : list Attempt) (c c' : Cache.cache) (t : list Action) (msg : string) :
  rangeChan (MainGo.handleEvent P startTime) ch c = Panic msg c' t ->
  MainGo.retryDriver P (watchOpens startTime ch :: more) c
    = Panic msg c' (ActSubscribe startTime :: t).
Proof.
  intros Hrun.
  change (MainGo.retryDriver P (watchOpens startTime ch :: more) c)
    with (bind (bind (emit (ActSubscribe startTime))
                  (fun _ => rangeChan (MainGo.handleEvent P startTime) ch))
            (fun _ => bind (emit (ActSleep (5 * Second)))
                        (fun _ => MainGo.retryDriver P more)) c).
  unfold bind, emit. now rewrite Hrun.
Qed.

(** X9.  In both listings an object on the stream that is not an event makes
    the unchecked type assertion panic, and the panic ends the retry driver:
    what the stream delivers afterwards is never handled, the driver neither
    sleeps nor subscribes again. *)
Theorem status_object_ends_the_process
    (P : Platform) (startTime : Z) (before after : list Arrival) (a : Arrival)
    (status : string) (more : list Attempt) (c c1 : Cache.cache) (t1 : list Action) :
  a_object a = ObjStatus status ->
  (rangeChan (Part000.handleEvent P startTime) before c = Ok tt c1 t1 ->
   Part000.retryDriver P (watchOpens startTime (before ++ a :: after) :: more) c
     = Panic "interface conversion" c1 (ActSubscribe startTime :: t1)) /\
  (rangeChan (MainGo.handleEvent P startTime) before c = Ok tt c1 t1 ->
   MainGo.retryDriver P (watchOpens startTime (before ++ a :: after) :: more) c
     = Panic "interface conversion" c1 (ActSubscribe startTime :: t1)).
Proof.
  intros Hobj. split; intros Hrun.
  - apply retryDriver_panic.
    rewrite (rangeChan_panic _ before after a c c1 c1 t1 [] "interface conversion" Hrun).
    + now rewrite app_nil_r.
    + unfold Part000.handleEvent. now rewrite Hobj.
  - apply MainGo_retryDriver_panic.
    rewrite (rangeChan_panic _ before after a c c1 c1 t1 [] "interface conversion" Hrun).
    + now rewrite app_nil_r.
    + unfold MainGo.handleEvent. now rewrite Hobj.
Qed.

Lemma status_object_ends_the_process_witness :
  notifications
    (res_trace
       (Part000.retryDriver goodPlatform
          [ watchOpens 0 [ arrival evCrash 1;
                           {| a_object := ObjStatus "Gone"; a_getTime := 2;
                              a_setTime := 2; a_doErr := false |};
                           arrival evOOM 3 ];
            watchOpens 6 [arrival evOOM 7] ]
          cachesvr))
  = [evCrash].
Proof.
  assert (Hbefore :
            rangeChan (Part000.handleEvent goodPlatform 0) [arrival evCrash 1] cachesvr
            = Ok tt
                (res_cache (rangeChan (Part000.handleEvent goodPlatform 0)
                              [arrival evCrash 1] cachesvr))
                (res_trace (rangeChan (Part000.handleEvent goodPlatform 0)
                              [arrival evCrash 1] cachesvr)))
    by (vm_compute; reflexivity).
  pose proof (proj1 (status_object_ends_the_process goodPlatform 0
                       [arrival evCrash 1] [arrival evOOM 3]
                       {| a_object := ObjStatus "Gone"; a_getTime := 2;
                          a_setTime := 2; a_doErr := false |}
                       "Gone" [watchOpens 6 [arrival evOOM 7]] cachesvr _ _ eq_refl)
                Hbefore) as Hrun.
  simpl app in Hrun. rewrite Hrun. vm_compute. reflexivity.
Defined.

(** A step whose notifier panics. *)
Lemma handleEvent_notifier_panics
    (P : Platform) (startTime : Z) (a : Arrival) (e : Event) (c : Cache.cache) :
  a_object a = ObjEvent e ->
  After (FirstTimestamp e) startTime = true ->
  Cache.Get c last_slack_event (a_getTime a) <> buildCachedEvent e ->
  panicked (notifySlack P (a_doErr a) e c) = true ->
  exists msg t,
    Part000.handleEvent P startTime a c = Panic msg c t /\
    notifications t = [e] /\
    posts t = [] /\
    (forall k v, ~ In (ActCacheSet k v) t).
Proof.
  intros Hobj Hafter Hget Hpanic.
  destruct (buildCachedEvent_Some e) as [fp Hfp]. rewrite Hfp in Hget.
  unfold Part000.handleEvent. rewrite Hobj, Hafter.
  unfold reduce. rewrite Hfp.
  cbv beta iota delta [mbind M_bind bind cacheGet cacheSet emit mret M_ret ret].
  rewrite notifySlack_eq in Hpanic.
  destruct (Cache.Get c last_slack_event (a_getTime a)) as [v|].
  - destruct (String.eqb_spec v fp) as [-> | Hne]; [congruence |]. simpl.
    rewrite !notifySlack_eq.
    destruct (jsonMarshal P (slackMessage P e)) as [body|].
    + destruct (NewRequest P "POST" (Getenv P "SLACK_WEBHOOK_URL") body);
        [discriminate |].
      do 2 eexists. split; [reflexivity |]. simpl. repeat split; auto.
      intros k v' [H | [H | [H | []]]]; discriminate.
    + do 2 eexists. split; [reflexivity |]. simpl. repeat split; auto.
      intros k v' [H | [H | [H | []]]]; discriminate.
  - rewrite !notifySlack_eq.
    destruct (jsonMarshal P (slackMessage P e)) as [body|].
    + destruct (NewRequest P "POST" (Getenv P "SLACK_WEBHOOK_URL") body);
        [discriminate |].
      do 2 eexists. split; [reflexivity |]. simpl. repeat split; auto.
      intros k v' [H | [H | []]]; discriminate.
    + do 2 eexists. split; [reflexivity |]. simpl. repeat split; auto.
      intros k v' [H | [H | []]]; discriminate.
Qed.

(** X10.  When the notifier panics on an event that was to be notified, the
    panic ends the retry driver of part_000 with the cache as it was before
    the event: nothing was posted, the fingerprint was not written, and the
    rest of the stream and all further attempts are lost. *)
Theorem notifier_panic_ends_the_process
    (P : Platform) (startTime : Z) (before after : list Arrival) (a : Arrival)
    (e : Event) (more : list Attempt) (c c1 : Cache.cache) (t1 : list Action) :
  a_object a = ObjEvent e ->
  After (FirstTimestamp e) startTime = true ->
  rangeChan (Part000.handleEvent P startTime) before c = Ok tt c1 t1 ->
  Cache.Get c1 last_slack_event (a_getTime a) <> buildCachedEvent e ->
  panicked (notifySlack P (a_doErr a) e c1) = true ->
  exists msg t2,
    Part000.retryDriver P (watchOpens startTime (before ++ a :: after) :: more) c
      = Panic msg c1 (ActSubscribe startTime :: t1 ++ t2) /\
    notifications t2 = [e] /\
    posts t2 = [] /\
    (forall k v, ~ In (ActCacheSet k v) t2).
Proof.
  intros Hobj Hafter Hrun Hget Hpanic.
  destruct (handleEvent_notifier_panics P startTime a e c1 Hobj Hafter Hget Hpanic)
    as (msg & t2 & Hstep & Hn & Hp & Hs).
  exists msg, t2. split; [| auto].
  apply retryDriver_panic.
  apply (rangeChan_panic _ before after a c c1 c1 t1 t2 msg Hrun Hstep).
Qed.

Lemma notifier_panic_ends_the_process_witness :
  exists msg t,
    Part000.retryDriver badWebhookUrl
      [watchOpens 0 [arrival evCrash 1; arrival evOOM 2]; watchOpens 6 [arrival evOOM 7]]
      cachesvr
    = Panic msg cachesvr t /\
    posts t = [].
Proof.
  destruct (notifier_panic_ends_the_process badWebhookUrl 0 [] [arrival evOOM 2]
              (arrival evCrash 1) evCrash [watchOpens 6 [arrival evOOM 7]]
              cachesvr cachesvr [] eq_refl eq_refl eq_refl)
    as (msg & t2 & Hrun & _ & Hp & _).
  - vm_compute. discriminate.
  - reflexivity.
  - exists msg, (ActSubscribe 0 :: [] ++ t2). split; [exact Hrun | exact Hp].
Defined.

(** ** Whole streams *)

Lemma SlotIs_Get (c : Cache.cache) (prev : option string) (now : Z) (v : string) :
  SlotIs c prev -> Cache.Get c last_slack_event now = Some v -> prev = Some v.
Proof.
  intros Hslot Hget. apply Get_lookup in Hget as (item & Hl & <-).
  destruct prev as [w|]; simpl in Hslot.
  - destruct Hslot as [exp Hs]. rewrite Hs in Hl. now injection Hl as <-.
  - congruence.
Qed.

Lemma SlotIs_SetItem (c : Cache.cache) (x : string) (now : Z) :
  SlotIs (Cache.SetItem c last_slack_event x 0 now) (Some x).
Proof. apply lookup_SetItem. Qed.

Lemma rangeChan_step (body : Arrival -> M unit) (a : Arrival) (rest : list Arrival)
    (c c1 c2 : Cache.cache) (t1 t2 : list Action) :
  body a c = Ok tt c1 t1 ->
  rangeChan body rest c1 = Ok tt c2 t2 ->
  rangeChan body (a :: rest) c = Ok tt c2 (t1 ++ t2).
Proof. intros H1 H2. now rewrite rangeChan_cons, H1, H2. Qed.

(** The notifications of a stream of fresh events lie between the events
    that change the fingerprint and all events, whatever the clock does. *)
Lemma rangeChan_sandwich (P : Platform) (startTime : Z) (ch : list Arrival) :
  NotifierReturns P ->
  AllFresh startTime ch ->
  forall (c : Cache.cache) (prev : option string),
    SlotIs c prev ->
    exists c' t,
      rangeChan (Part000.handleEvent P startTime) ch c = Ok tt c' t /\
      sublist (collapse prev (eventsOf ch)) (notifications t) /\
      sublist (notifications t) (eventsOf ch).
Proof.
  intros HP Hfresh. induction Hfresh as [|a ch (e & Hobj & Hafter) _ IH];
    intros c prev Hslot.
  - exists c, []. repeat split; constructor.
  - simpl eventsOf. rewrite Hobj. simpl collapse.
    destruct (buildCachedEvent_Some e) as [fp Hfp]. rewrite Hfp.
    destruct (decide (Cache.Get c last_slack_event (a_getTime a) = Some fp)) as [Hhit | Hmiss].
    + pose proof (SlotIs_Get c prev _ fp Hslot Hhit) as ->.
      rewrite bool_decide_eq_true_2 by reflexivity.
      pose proof (handleEvent_spec P startTime a c) as Hstep.
      rewrite Hobj, Hafter, Hfp, bool_decide_eq_true_2 in Hstep by exact Hhit.
      destruct (IH c (Some fp) Hslot) as (c' & t & Hrun & Hlow & Hup).
      exists c', ([ActCacheGet last_slack_event; ActReduce e] ++ t).
      split; [apply (rangeChan_step _ _ _ _ _ _ _ _ Hstep Hrun) |].
      rewrite notifications_app. simpl.
      split; [exact Hlow | now apply sublist_cons].
    + destruct (HP e) as (body & req & Hm & Hr).
      destruct (handleEvent_notifies P startTime a e c fp body req
                  Hobj Hafter Hfp Hmiss Hm Hr) as (t1 & Hstep & Hn1 & _).
      destruct (IH _ (Some fp) (SlotIs_SetItem c fp (a_setTime a)))
        as (c' & t & Hrun & Hlow & Hup).
      exists c', (t1 ++ t).
      split; [apply (rangeChan_step _ _ _ _ _ _ _ _ Hstep Hrun) |].
      rewrite notifications_app, Hn1. simpl.
      split; [| now apply sublist_skip].
      destruct (bool_decide (prev = Some fp)) eqn:Hd.
      * apply bool_decide_eq_true_1 in Hd. subst prev. now apply sublist_cons.
      * now apply sublist_skip.
Qed.

(** X11.  Whatever the clock does, a stream of fresh events handled from the
    empty cache on a platform that lets the notifier return is handled to its
    end, every event whose fingerprint differs from that of its predecessor
    is notified, and nothing but events of the stream is notified.  In
    particular two conditions that alternate are notified every time. *)
Theorem changes_are_always_notified
    (P : Platform) (startTime : Z) (ch : list Arrival) :
  NotifierReturns P ->
  AllFresh startTime ch ->
  exists c t,
    rangeChan (Part000.handleEvent P startTime) ch cachesvr = Ok tt c t /\
    sublist (collapse None (eventsOf ch)) (notifications t) /\
    sublist (notifications t) (eventsOf ch).
Proof.
  intros HP Hfresh.
  apply (rangeChan_sandwich P startTime ch HP Hfresh cachesvr None). reflexivity.
Qed.

Lemma goodPlatform_returns : NotifierReturns goodPlatform.
Proof.
  intros e. exists "{}".
  exists {| Method := "POST"; URL := "http://hooks.example/T0"; Body := "{}"; Header := ∅ |}.
  split; reflexivity.
Qed.

Lemma changes_are_always_notified_witness :
  exists c t,
    rangeChan (Part000.handleEvent goodPlatform 0)
      [arrival evCrash 1; arrival evOOM 2; arrival evCrash 3; arrival evOOM 4] cachesvr
    = Ok tt c t /\
    sublist [evCrash; evOOM; evCrash; evOOM] (notifications t).
Proof.
  destruct (changes_are_always_notified goodPlatform 0
              [arrival evCrash 1; arrival evOOM 2; arrival evCrash 3; arrival evOOM 4]
              goodPlatform_returns)
    as (c & t & Hrun & Hlow & _).
  - repeat constructor; eexists; split; reflexivity.
  - exists c, t. split; [exact Hrun | exact Hlow].
Defined.

Lemma LiveUntil_Get (T : Z) (c : Cache.cache) (prev : option string) (now : Z) :
  LiveUntil T c prev -> (now <= T)%Z -> Cache.Get c last_slack_event now = prev.
Proof.
  intros [_ Hslot] Hnow. unfold Cache.Get.
  destruct prev as [v|].
  - destruct Hslot as (exp & -> & Hexp). simpl.
    replace (exp <? now)%Z with false by (symmetry; apply Z.ltb_ge; lia).
    now rewrite andb_false_r.
  - now rewrite Hslot.
Qed.

Lemma LiveUntil_SetItem (T : Z) (c : Cache.cache) (x : string) (now : Z) :
  Cache.defaultExpiration c = (1 * Minute)%Z ->
  (T <= now + 1 * Minute)%Z ->
  LiveUntil T (Cache.SetItem c last_slack_event x 0 now) (Some x).
Proof.
  intros Hde HT. split; [exact Hde |].
  exists (now + 1 * Minute)%Z. split; [| exact HT].
  unfold Cache.SetItem. simpl. rewrite lookup_insert_eq, Hde. reflexivity.
Qed.

Lemma rangeChan_within_window (P : Platform) (startTime T : Z) (ch : list Arrival) :
  NotifierReturns P ->
  AllFresh startTime ch ->
  WithinWindow T ch ->
  forall (c : Cache.cache) (prev : option string),
    LiveUntil T c prev ->
    exists c' t,
      rangeChan (Part000.handleEvent P startTime) ch c = Ok tt c' t /\
      notifications t = collapse prev (eventsOf ch).
Proof.
  intros HP Hfresh. induction Hfresh as [|a ch (e & Hobj & Hafter) _ IH];
    intros Hwin c prev Hlive.
  - exists c, []. split; reflexivity.
  - apply Forall_cons in Hwin as [[Hget Hset] Hwin].
    simpl eventsOf. rewrite Hobj. simpl collapse.
    destruct (buildCachedEvent_Some e) as [fp Hfp]. rewrite Hfp.
    pose proof (LiveUntil_Get T c prev (a_getTime a) Hlive Hget) as Hread.
    destruct (decide (prev = Some fp)) as [Hhit | Hmiss].
    + rewrite bool_decide_eq_true_2 by exact Hhit.
      pose proof (handleEvent_spec P startTime a c) as Hstep.
      rewrite Hobj, Hafter, Hfp, Hread, bool_decide_eq_true_2 in Hstep by exact Hhit.
      destruct (IH Hwin c prev Hlive) as (c' & t & Hrun & Hn).
      exists c', ([ActCacheGet last_slack_event; ActReduce e] ++ t).
      split; [apply (rangeChan_step _ _ _ _ _ _ _ _ Hstep Hrun) |].
      now rewrite notifications_app.
    + rewrite bool_decide_eq_false_2 by exact Hmiss.
      destruct (HP e) as (body & req & Hm & Hr).
      rewrite <- Hread in Hmiss.
      destruct (handleEvent_notifies P startTime a e c fp body req
                  Hobj Hafter Hfp Hmiss Hm Hr) as (t1 & Hstep & Hn1 & _).
      destruct (IH Hwin _ (Some fp)
                  (LiveUntil_SetItem T c fp (a_setTime a) (proj1 Hlive) Hset))
        as (c' & t & Hrun & Hn).
      exists c', (t1 ++ t).
      split; [apply (rangeChan_step _ _ _ _ _ _ _ _ Hstep Hrun) |].
      now rewrite notifications_app, Hn1, Hn.
Qed.

(** X12.  While no cached entry can expire (all cache reads of the stream
    happen before an instant [T], all cache writes within the minute before
    it), a stream of fresh events handled from the empty cache is notified
    exactly at the events whose fingerprint differs from that of their
    predecessor: runs of one condition collapse to one notification. *)
Theorem notifications_within_window
    (P : Platform) (startTime T : Z) (ch : list Arrival) :
  NotifierReturns P ->
  AllFresh startTime ch ->
  WithinWindow T ch ->
  exists c t,
    rangeChan (Part000.handleEvent P startTime) ch cachesvr = Ok tt c t /\
    notifications t = collapse None (eventsOf ch).
Proof.
  intros HP Hfresh Hwin.
  apply (rangeChan_within_window P startTime T ch HP Hfresh Hwin cachesvr None).
  split; reflexivity.
Qed.

Lemma notifications_within_window_witness :
  exists c t,
    rangeChan (Part000.handleEvent goodPlatform 0)
      [arrival evReadinessA 1; arrival evReadinessB 2; arrival evCrash 3;
       arrival evCrash 4; arrival evReadinessA 5] cachesvr
    = Ok tt c t /\
    notifications t = [evReadinessA; evCrash; evReadinessA].
Proof.
  apply (notifications_within_window goodPlatform 0 5
           [arrival evReadinessA 1; arrival evReadinessB 2; arrival evCrash 3;
            arrival evCrash 4; arrival evReadinessA 5]
           goodPlatform_returns).
  - repeat constructor; eexists; split; reflexivity.
  - repeat constructor; vm_compute; discriminate.
Defined.

(** ** The shape of the cache *)

Lemma Keeps_bind {A B} (m : M A) (f : A -> M B) :
  Keeps m -> (forall a, Keeps (f a)) -> Keeps (bind m f).
Proof.
  intros Hm Hf c Hc. unfold bind.
  specialize (Hm c Hc).
  destruct (m c) as [a c1 t1 | msg c1 t1]; simpl in *; [| exact Hm].
  specialize (Hf a c1 Hm).
  now destruct (f a c1).
Qed.

Lemma Keeps_ret {A} (a : A) : Keeps (ret a).
Proof. intros c Hc. exact Hc. Qed.

Lemma Keeps_panic {A} (msg : string) : Keeps (@panic A msg).
Proof. intros c Hc. exact Hc. Qed.

Lemma Keeps_emit (a : Action) : Keeps (emit a).
Proof. intros c Hc. exact Hc. Qed.

Lemma Keeps_cacheGet (now : Z) : Keeps (cacheGet last_slack_event now).
Proof. intros c Hc. exact Hc. Qed.

Lemma Keeps_cacheSet (x : string) (now : Z) : Keeps (cacheSet last_slack_event x 0 now).
Proof.
  intros c [Hde Hone]. split; [exact Hde |].
  intros k Hk. unfold cacheSet, Cache.SetItem. simpl.
  rewrite lookup_insert_ne by congruence. now apply Hone.
Qed.

Lemma Keeps_notifySlack (P : Platform) (doErr : bool) (e : Event) :
  Keeps (notifySlack P doErr e).
Proof.
  intros c Hc. rewrite notifySlack_eq.
  destruct (jsonMarshal P (slackMessage P e)) as [body|]; [| exact Hc].
  now destruct (NewRequest P "POST" (Getenv P "SLACK_WEBHOOK_URL") body).
Qed.

Lemma Keeps_reduce (e : Event) : Keeps (reduce e).
Proof.
  apply (Keeps_bind (emit (ActReduce e))); [apply Keeps_emit |].
  intros _. destruct (buildCachedEvent e); [apply Keeps_ret | apply Keeps_panic].
Qed.

Lemma Keeps_Part000_handleEvent (P : Platform) (startTime : Z) (a : Arrival) :
  Keeps (Part000.handleEvent P startTime a).
Proof.
  unfold Part000.handleEvent.
  destruct (a_object a) as [e|st]; [| apply Keeps_panic].
  destruct (After (FirstTimestamp e) startTime); [| apply Keeps_ret].
  apply (Keeps_bind (cacheGet last_slack_event (a_getTime a))); [apply Keeps_cacheGet |].
  intros [cachedMessage|].
  - apply (Keeps_bind (reduce e)); [apply Keeps_reduce |]. intros currentMessage.
    destruct (negb (String.eqb cachedMessage currentMessage)); [| apply Keeps_ret].
    apply (Keeps_bind (notifySlack P (a_doErr a) e)); [apply Keeps_notifySlack |].
    intros _. apply Keeps_cacheSet.
  - apply (Keeps_bind (notifySlack P (a_doErr a) e)); [apply Keeps_notifySlack |].
    intros _. apply (Keeps_bind (reduce e)); [apply Keeps_reduce |].
    intros currentMessage. apply Keeps_cacheSet.
Qed.

Lemma Keeps_MainGo_handleEvent (P : Platform) (startTime : Z) (a : Arrival) :
  Keeps (MainGo.handleEvent P startTime a).
Proof.
  unfold MainGo.handleEvent.
  destruct (a_object a) as [e|st]; [| apply Keeps_panic].
  destruct (After (FirstTimestamp e) startTime); [| apply Keeps_ret].
  apply (Keeps_bind (cacheGet last_slack_event (a_getTime a))); [apply Keeps_cacheGet |].
  intros [msg|].
  - destruct (negb (String.eqb msg (Message e))); [| apply Keeps_ret].
    apply (Keeps_bind (notifySlack P (a_doErr a) e)); [apply Keeps_notifySlack |].
    intros _. apply Keeps_cacheSet.
  - apply (Keeps_bind (notifySlack P (a_doErr a) e)); [apply Keeps_notifySlack |].
    intros _. apply Keeps_cacheSet.
Qed.

Lemma Keeps_rangeChan (body : Arrival -> M unit) (ch : list Arrival) :
  (forall a, Keeps (body a)) -> Keeps (rangeChan body ch).
Proof.
  intros Hbody. induction ch as [|a ch IH]; [apply Keeps_ret |].
  apply (Keeps_bind (body a)); [apply Hbody | intros _; exact IH].
Qed.

Lemma Keeps_Part000_retryDriver (P : Platform) (attempts : list Attempt) :
  Keeps (Part000.retryDriver P attempts).
Proof.
  induction attempts as [|att rest IH]; [apply Keeps_ret |].
  apply (Keeps_bind (Part000.watchEvents P att)).
  - unfold Part000.watchEvents. destruct (at_watch att) as [err|ch]; [apply Keeps_panic |].
    apply (Keeps_bind (emit (ActSubscribe (at_startTime att)))); [apply Keeps_emit |].
    intros _. apply Keeps_rangeChan. apply Keeps_Part000_handleEvent.
  - intros _. apply (Keeps_bind (emit (ActSleep (5 * Second)))); [apply Keeps_emit |].
    intros _. exact IH.
Qed.

Lemma Keeps_MainGo_retryDriver (P : Platform) (attempts : list Attempt) :
  Keeps (MainGo.retryDriver P attempts).
Proof.
  induction attempts as [|att rest IH]; [apply Keeps_ret |].
  apply (Keeps_bind (MainGo.watchEvents P att)).
  - unfold MainGo.watchEvents. destruct (at_watch att) as [err|ch]; [apply Keeps_panic |].
    apply (Keeps_bind (emit (ActSubscribe (at_startTime att)))); [apply Keeps_emit |].
    intros _. apply Keeps_rangeChan. apply Keeps_MainGo_handleEvent.
  - intros _. apply (Keeps_bind (emit (ActSleep (5 * Second)))); [apply Keeps_emit |].
    intros _. exact IH.
Qed.

(** X13.  In both listings the cache of the process never holds anything but
    the one slot, and its default expiration stays at one minute, at the end
    of every run of the retry driver, returned or panicked. *)
Theorem cache_is_a_single_slot (P : Platform) (attempts : list Attempt) :
  (Cache.defaultExpiration (res_cache (Part000.retryDriver P attempts cachesvr))
     = (1 * Minute)%Z /\
   SingleSlot (res_cache (Part000.retryDriver P attempts cachesvr))) /\
  (Cache.defaultExpiration (res_cache (MainGo.retryDriver P attempts cachesvr))
     = (1 * Minute)%Z /\
   SingleSlot (res_cache (MainGo.retryDriver P attempts cachesvr))).
Proof.
  assert (H0 : CacheShape cachesvr).
  { split; [reflexivity |]. intros k _. reflexivity. }
  split.
  - apply (Keeps_Part000_retryDriver P attempts cachesvr H0).
  - apply (Keeps_MainGo_retryDriver P attempts cachesvr H0).
Qed.

(** ** The watch loop of [src/main.go] *)

Lemma eqb_message (v : string) (e : Event) :
  String.eqb v (Message e) = bool_decide (Some v = Some (Message e)).
Proof.
  destruct (String.eqb_spec v (Message e)) as [-> | Hne].
  - now rewrite bool_decide_eq_true_2.
  - rewrite bool_decide_eq_false_2; [reflexivity | congruence].
Qed.

(** What [MainGo.handleEvent] does, case by case. *)
Lemma MainGo_handleEvent_spec
    (P : Platform) (startTime : Z) (a : Arrival) (c : Cache.cache) :
  match a_object a with
  | ObjStatus _ =>
      MainGo.handleEvent P startTime a c = Panic "interface conversion" c []
  | ObjEvent e =>
      if After (FirstTimestamp e) startTime then
        if bool_decide (Cache.Get c last_slack_event (a_getTime a) = Some (Message e))
        then
          MainGo.handleEvent P startTime a c = Ok tt c [ActCacheGet last_slack_event]
        else
          match MainGo.handleEvent P startTime a c with
          | Ok _ c' t =>
              c' = Cache.SetItem c last_slack_event (Message e) 0 (a_setTime a) /\
              notifications t = [e] /\
              panicked (notifySlack P (a_doErr a) e c) = false
          | Panic _ c' t =>
              c' = c /\ notifications t = [e]
          end
      else
        MainGo.handleEvent P startTime a c = Ok tt c []
  end.
Proof.
  unfold MainGo.handleEvent.
  destruct (a_object a) as [e|st]; [|reflexivity].
  destruct (After (FirstTimestamp e) startTime); [|reflexivity].
  cbv beta iota delta [mbind M_bind bind cacheGet cacheSet emit mret M_ret ret].
  destruct (Cache.Get c last_slack_event (a_getTime a)) as [v|] eqn:Hget.
  - rewrite (eqb_message v e).
    destruct (bool_decide (Some v = Some (Message e))); simpl; [reflexivity |].
    rewrite notifySlack_eq.
    destruct (jsonMarshal P (slackMessage P e)) as [body|]; [|now split].
    destruct (NewRequest P "POST" (Getenv P "SLACK_WEBHOOK_URL") body) as [req|];
      [|now split].
    destruct (a_doErr a); simpl; repeat split; reflexivity.
  - rewrite bool_decide_eq_false_2 by discriminate.
    rewrite notifySlack_eq.
    destruct (jsonMarshal P (slackMessage P e)) as [body|]; [|now split].
    destruct (NewRequest P "POST" (Getenv P "SLACK_WEBHOOK_URL") body) as [req|];
      [|now split].
    destruct (a_doErr a); simpl; repeat split; reflexivity.
Qed.

(** X14.  The loop body of [src/main.go] drops an event that is not after
    the start time without any action, passes over an event whose raw message
    the slot shows after one cache read, and invokes the notifier exactly when
    the slot is absent or shows another message. *)
Theorem maingo_dedups_on_raw_message
    (P : Platform) (startTime : Z) (a : Arrival) (e : Event) (c : Cache.cache) :
  a_object a = ObjEvent e ->
  (After (FirstTimestamp e) startTime = false ->
   MainGo.handleEvent P startTime a c = Ok tt c []) /\
  (After (FirstTimestamp e) startTime = true ->
   Cache.Get c last_slack_event (a_getTime a) = Some (Message e) ->
   MainGo.handleEvent P startTime a c = Ok tt c [ActCacheGet last_slack_event]) /\
  (After (FirstTimestamp e) startTime = true ->
   (notifications (res_trace (MainGo.handleEvent P startTime a c)) = [e] <->
    Cache.Get c last_slack_event (a_getTime a) <> Some (Message e))).
Proof.
  intros Hobj. pose proof (MainGo_handleEvent_spec P startTime a c) as H.
  rewrite Hobj in H. split; [| split].
  - intros Hstale. now rewrite Hstale in H.
  - intros Hafter Hget. rewrite Hafter in H.
    now rewrite bool_decide_eq_true_2 in H.
  - intros Hafter. rewrite Hafter in H. split.
    + intros Hn Hget.
      rewrite bool_decide_eq_true_2 in H by exact Hget.
      rewrite H in Hn. discriminate.
    + intros Hne.
      rewrite bool_decide_eq_false_2 in H by exact Hne.
      destruct (MainGo.handleEvent P startTime a c); simpl; tauto.
Qed.

Lemma maingo_dedups_on_raw_message_witness :
  MainGo.handleEvent goodPlatform 0 (arrival evCrashOther 2)
    (Cache.SetItem cachesvr last_slack_event "CrashLoopBackOff" 0 1)
  = Ok tt (Cache.SetItem cachesvr last_slack_event "CrashLoopBackOff" 0 1)
      [ActCacheGet last_slack_event].
Proof.
  apply (maingo_dedups_on_raw_message goodPlatform 0 (arrival evCrashOther 2)
           evCrashOther _ eq_refl); reflexivity.
Defined.

Lemma MainGo_handleEvent_notifies
    (P : Platform) (startTime : Z) (a : Arrival) (e : Event) (c : Cache.cache) :
  NotifierReturns P ->
  a_object a = ObjEvent e ->
  After (FirstTimestamp e) startTime = true ->
  Cache.Get c last_slack_event (a_getTime a) <> Some (Message e) ->
  exists t,
    MainGo.handleEvent P startTime a c
      = Ok tt (Cache.SetItem c last_slack_event (Message e) 0 (a_setTime a)) t /\
    notifications t = [e].
Proof.
  intros HP Hobj Hafter Hget.
  pose proof (MainGo_handleEvent_spec P startTime a c) as H.
  rewrite Hobj, Hafter, bool_decide_eq_false_2 in H by exact Hget.
  destruct (HP e) as (body & req & Hm & Hr).
  destruct (MainGo.handleEvent P startTime a c) as [[] c' t | msg c' t] eqn:Hrun.
  - destruct H as (-> & Hn & _). eauto.
  - exfalso. revert Hrun. unfold MainGo.handleEvent. rewrite Hobj, Hafter.
    cbv beta iota delta [mbind M_bind bind cacheGet cacheSet emit mret M_ret ret].
    destruct (Cache.Get c last_slack_event (a_getTime a)) as [v|].
    + destruct (negb (String.eqb v (Message e))); [| discriminate].
      rewrite notifySlack_eq, Hm, Hr. discriminate.
    + rewrite notifySlack_eq, Hm, Hr. discriminate.
Qed.

Lemma MainGo_rangeChan_within_window
    (P : Platform) (startTime T : Z) (ch : list Arrival) :
  NotifierReturns P ->
  AllFresh startTime ch ->
  WithinWindow T ch ->
  forall (c : Cache.cache) (prev : option string),
    LiveUntil T c prev ->
    exists c' t,
      rangeChan (MainGo.handleEvent P startTime) ch c = Ok tt c' t /\
      notifications t = collapseRaw prev (eventsOf ch).
Proof.
  intros HP Hfresh. induction Hfresh as [|a ch (e & Hobj & Hafter) _ IH];
    intros Hwin c prev Hlive.
  - exists c, []. split; reflexivity.
  - apply Forall_cons in Hwin as [[Hget Hset] Hwin].
    simpl eventsOf. rewrite Hobj. simpl collapseRaw.
    pose proof (LiveUntil_Get T c prev (a_getTime a) Hlive Hget) as Hread.
    destruct (decide (prev = Some (Message e))) as [Hhit | Hmiss].
    + rewrite bool_decide_eq_true_2 by exact Hhit.
      pose proof (MainGo_handleEvent_spec P startTime a c) as Hstep.
      rewrite Hobj, Hafter, Hread, bool_decide_eq_true_2 in Hstep by exact Hhit.
      destruct (IH Hwin c prev Hlive) as (c' & t & Hrun & Hn).
      exists c', ([ActCacheGet last_slack_event] ++ t).
      split; [apply (rangeChan_step _ _ _ _ _ _ _ _ Hstep Hrun) |].
      now rewrite notifications_app.
    + rewrite bool_decide_eq_false_2 by exact Hmiss.
      rewrite <- Hread in Hmiss.
      destruct (MainGo_handleEvent_notifies P startTime a e c HP Hobj Hafter Hmiss)
        as (t1 & Hstep & Hn1).
      destruct (IH Hwin _ (Some (Message e))
                  (LiveUntil_SetItem T c (Message e) (a_setTime a) (proj1 Hlive) Hset))
        as (c' & t & Hrun & Hn).
      exists c', (t1 ++ t).
      split; [apply (rangeChan_step _ _ _ _ _ _ _ _ Hstep Hrun) |].
      now rewrite notifications_app, Hn1, Hn.
Qed.

(** X15.  While no cached entry can expire, [src/main.go] notifies a stream
    of fresh events exactly at the events whose raw message differs from that
    of their predecessor; the subject of the event has no part in it. *)
Theorem maingo_notifications_within_window
    (P : Platform) (startTime T : Z) (ch : list Arrival) :
  NotifierReturns P ->
  AllFresh startTime ch ->
  WithinWindow T ch ->
  exists c t,
    rangeChan (MainGo.handleEvent P startTime) ch cachesvr = Ok tt c t /\
    notifications t = collapseRaw None (eventsOf ch).
Proof.
  intros HP Hfresh Hwin.
  apply (MainGo_rangeChan_within_window P startTime T ch HP Hfresh Hwin cachesvr None).
  split; reflexivity.
Qed.

Lemma maingo_notifications_within_window_witness :
  exists c t,
    rangeChan (MainGo.handleEvent goodPlatform 0)
      [arrival evReadinessA 1; arrival evReadinessB 2; arrival evCrash 3;
       arrival evCrashOther 4] cachesvr
    = Ok tt c t /\
    notifications t = [evReadinessA; evReadinessB; evCrash].
Proof.
  apply (maingo_notifications_within_window goodPlatform 0 4
           [arrival evReadinessA 1; arrival evReadinessB 2; arrival evCrash 3;
            arrival evCrashOther 4]
           goodPlatform_returns).
  - repeat constructor; eexists; split; reflexivity.
  - repeat constructor; vm_compute; discriminate.
Defined.

(** ** The two retry drivers *)

Section Drivers.

Variable P : Platform.
Variable E : Event -> Prop.
Hypothesis HE : MessagesIdentify E.

Lemma Agree_bind (m1 m2 k1 k2 : M unit) (c1 c2 : Cache.cache) :
  Agree E (m1 c1) (m2 c2) ->
  (forall c1' c2', Related E c1' c2' -> Agree E (k1 c1') (k2 c2')) ->
  Agree E (bind m1 (fun _ => k1) c1) (bind m2 (fun _ => k2) c2).
Proof.
  intros Hm Hk. unfold bind.
  destruct (m1 c1) as [[] c1' t1 | ]; destruct (m2 c2) as [[] c2' t2 | ];
    simpl in Hm; try contradiction; [| exact Hm].
  destruct Hm as [Hn Hrel]. specialize (Hk c1' c2' Hrel).
  destruct (k1 c1') as [[] ? ? | ]; destruct (k2 c2') as [[] ? ? | ];
    simpl in *; try contradiction; rewrite !notifications_app, Hn.
  - destruct Hk as [-> Hr]. now split.
  - now rewrite Hk.
Qed.

Lemma rangeChan_agree (startTime : Z) (ch : list Arrival) :
  (forall e, delivers ch e -> E e) ->
  forall c1 c2, Related E c1 c2 ->
    Agree E (rangeChan (MainGo.handleEvent P startTime) ch c1)
          (rangeChan (Part000.handleEvent P startTime) ch c2).
Proof.
  induction ch as [|a ch IH]; intros Hin c1 c2 Hrel; [now split |].
  apply Agree_bind.
  - apply (handleEvent_sim P startTime E HE a c1 c2); [| exact Hrel].
    intros e He. apply Hin. exists a. split; [now left | exact He].
  - apply IH. intros e (a' & Hin' & He). apply Hin. exists a'. split; [now right | exact He].
Qed.

Lemma retryDriver_agree (attempts : list Attempt) :
  (forall e, deliveredBy attempts e -> E e) ->
  forall c1 c2, Related E c1 c2 ->
    Agree E (MainGo.retryDriver P attempts c1) (Part000.retryDriver P attempts c2).
Proof.
  induction attempts as [|att rest IH]; intros Hin c1 c2 Hrel; [now split |].
  apply Agree_bind.
  - unfold MainGo.watchEvents, Part000.watchEvents.
    destruct (at_watch att) as [err|ch] eqn:Hw; [reflexivity |].
    apply Agree_bind; [now split |].
    apply rangeChan_agree. intros e He. apply Hin.
    exists att, ch. split; [now left | now split].
  - intros c1' c2' Hrel'. apply Agree_bind; [now split |].
    apply IH. intros e (att' & ch & Hin' & Hw & He). apply Hin.
    exists att', ch. split; [now right | now split].
Qed.

Lemma Agree_observable (r1 r2 : Result unit) :
  Agree E r1 r2 ->
  notifications (res_trace r1) = notifications (res_trace r2) /\
  panicked r1 = panicked r2.
Proof.
  destruct r1 as [[] ? ? | ]; destruct r2 as [[] ? ? | ]; simpl; try contradiction.
  - intros [H _]. now split.
  - intros H. now split.
Qed.

End Drivers.

(** X16.  Over any number of reconnects: when among the events all streams
    deliver two have the same raw message exactly when they reduce to the same
    fingerprint, the retry driver of [src/main.go] and that of part_000,
    started on the empty cache, notify for the same events in the same order
    and end alike, returned or panicked. *)
Theorem drivers_agree_when_messages_identify (P : Platform) (attempts : list Attempt) :
  MessagesIdentify (deliveredBy attempts) ->
  notifications (res_trace (MainGo.retryDriver P attempts cachesvr))
    = notifications (res_trace (Part000.retryDriver P attempts cachesvr)) /\
  panicked (MainGo.retryDriver P attempts cachesvr)
    = panicked (Part000.retryDriver P attempts cachesvr).
Proof.
  intros HE.
  apply (Agree_observable (deliveredBy attempts)).
  apply (retryDriver_agree P (deliveredBy attempts) HE attempts); [auto |].
  split; [reflexivity | left; split; reflexivity].
Qed.

Lemma drivers_agree_when_messages_identify_witness :
  notifications
    (res_trace (MainGo.retryDriver goodPlatform
                  [watchOpens 0 [arrival evCrash 1]; watchOpens 6 [arrival evOOM 7]]
                  cachesvr))
  = notifications
      (res_trace (Part000.retryDriver goodPlatform
                    [watchOpens 0 [arrival evCrash 1]; watchOpens 6 [arrival evOOM 7]]
                    cachesvr)).
Proof.
  apply (drivers_agree_when_messages_identify goodPlatform
           [watchOpens 0 [arrival evCrash 1]; watchOpens 6 [arrival evOOM 7]]).
  intros e1 e2 (att1 & ch1 & Hi1 & Hw1 & a1 & Ha1 & Ho1)
               (att2 & ch2 & Hi2 & Hw2 & a2 & Ha2 & Ho2).
  simpl in Hi1, Hi2.
  destruct Hi1 as [<- | [<- | []]]; injection Hw1 as <-;
    destruct Ha1 as [<- | []]; injection Ho1 as <-;
    destruct Hi2 as [<- | [<- | []]]; injection Hw2 as <-;
    destruct Ha2 as [<- | []]; injection Ho2 as <-;
    split; intros H; try reflexivity; vm_compute in H; discriminate.
Defined.

(** ** Replays after a reconnect *)

Lemma retryDriver_cons_ext (P : Platform) (att1 att2 : Attempt) (rest : list Attempt) :
  (forall c, Part000.watchEvents P att1 c = Part000.watchEvents P att2 c) ->
  forall c, Part000.retryDriver P (att1 :: rest) c = Part000.retryDriver P (att2 :: rest) c.
Proof.
  intros Hext c.
  change (bind (Part000.watchEvents P att1)
            (fun _ => bind (emit (ActSleep (5 * Second)))
                        (fun _ => Part000.retryDriver P rest)) c
          = bind (Part000.watchEvents P att2)
              (fun _ => bind (emit (ActSleep (5 * Second)))
                          (fun _ => Part000.retryDriver P rest)) c).
  unfold bind at 1 3. now rewrite Hext.
Qed.

(** X17.  Every attempt filters against its own start time: an event the
    feed replays in some attempt with a first timestamp not after the start
    time of that attempt changes nothing in the run of the retry driver,
    whatever was handled in earlier attempts. *)
Theorem replay_is_filtered_per_attempt
    (P : Platform) (startTime : Z) (a : Arrival) (e : Event)
    (earlier later : list Attempt) (before after : list Arrival) (c : Cache.cache) :
  a_object a = ObjEvent e ->
  After (FirstTimestamp e) startTime = false ->
  Part000.retryDriver P
    (earlier ++ watchOpens startTime (before ++ a :: after) :: later) c
  = Part000.retryDriver P
      (earlier ++ watchOpens startTime (before ++ after) :: later) c.
Proof.
  intros Hobj Hstale.
  assert (Hskip : forall c', Part000.handleEvent P startTime a c' = Ok tt c' []).
  { intros c'. pose proof (handleEvent_spec P startTime a c') as H.
    now rewrite Hobj, Hstale in H. }
  revert c. induction earlier as [|att earlier IH]; intros c.
  - simpl app. apply retryDriver_cons_ext. intros c'.
    unfold Part000.watchEvents, watchOpens. simpl.
    unfold mbind, M_bind, bind, emit.
    now rewrite (rangeChan_skip _ a Hskip before after c').
  - simpl app.
    change (bind (Part000.watchEvents P att)
              (fun _ => bind (emit (ActSleep (5 * Second)))
                          (fun _ => Part000.retryDriver P
                                      (earlier ++ watchOpens startTime (before ++ a :: after)
                                         :: later))) c
            = bind (Part000.watchEvents P att)
                (fun _ => bind (emit (ActSleep (5 * Second)))
                            (fun _ => Part000.retryDriver P
                                        (earlier ++ watchOpens startTime (before ++ after)
                                           :: later))) c).
    unfold bind, emit.
    destruct (Part000.watchEvents P att c) as [[] c1 t1 | ]; [| reflexivity].
    now rewrite IH.
Qed.

Lemma replay_is_filtered_per_attempt_witness :
  notifications
    (res_trace
       (Part000.retryDriver goodPlatform
          [ watchOpens 0 [arrival evCrash 1];
            watchOpens 100 [arrival evOOM 101; arrival (mkEvent "ns1" "Pod" "app-abc123"
                                                          "Failed" "ImagePullBackOff" 200) 102] ]
          cachesvr))
  = [evCrash; mkEvent "ns1" "Pod" "app-abc123" "Failed" "ImagePullBackOff" 200].
Proof.
  pose proof (replay_is_filtered_per_attempt goodPlatform 100 (arrival evOOM 101) evOOM
                [watchOpens 0 [arrival evCrash 1]] []
                []
                [arrival (mkEvent "ns1" "Pod" "app-abc123" "Failed" "ImagePullBackOff" 200)
                   102]
                cachesvr eq_refl eq_refl) as H.
  simpl app in H. rewrite H. vm_compute. reflexivity.
Defined.
